(** * OpenClaw MCP server ([src/index.js]): a shallow embedding

    The server exposes a remote registry of instruction files through four
    tools.  Every handler is a pure transformation of what the registry
    answered, so the embedding threads the registry's answers through an
    exception monad and keeps the rest as plain functions.

    Conventions.
    - A JavaScript string is a [string]; a character stands for a UTF-16
      code unit below 256, and the whitespace and case tables below are the
      ECMAScript ones restricted to that range.  The two signs of the
      message templates that lie above that range (a star and a dash) are
      spelled by their UTF-8 bytes; no function looks inside them.
    - A JavaScript number that the code only compares or prints (quality
      scores, thresholds, counts, HTTP statuses) is a whole number ([Z],
      [N] or [nat]).
    - An optional property is an [option]; [None] is [undefined].
    - The index, its entries and the arguments are typed as the input
      schemas and the registry's index format declare them; a value of
      another type, on which a handler would throw a [TypeError], has no
      counterpart here.
    - A plain object used as a map ([counts], [categoryInfo]) is the finite
      map of its own properties; a key that is not its own is looked up in
      [Object.prototype], whose members are listed in [object_prototype].
      A built-in function prints as Node prints it.
    - [throw] and [try]/[catch] are the monad [result] and [try_catch];
      [await] is its bind. *)

From Stdlib Require Import ZArith Ascii String List Bool Lia.
From stdpp Require Import gmap strings pretty list fin_maps.
Import ListNotations.

(** ** Strings *)

Module Js.

(** Characters are compared by code unit. *)
Definition code (c : ascii) : nat := nat_of_ascii c.

(** [\s]: WhiteSpace and LineTerminator code units below 256, that is TAB,
    LF, VT, FF, CR, SPACE and NO-BREAK SPACE. *)
Definition is_space (c : ascii) : bool :=
  let n := code c in
  (((9 <=? n) && (n <=? 13)) || (n =? 32) || (n =? 160))%nat.

(** [\w] without the [i] and [u] flags: [A-Za-z0-9_]. *)
Definition is_word (c : ascii) : bool :=
  let n := code c in
  (((65 <=? n) && (n <=? 90)) || ((97 <=? n) && (n <=? 122))
   || ((48 <=? n) && (n <=? 57)) || (n =? 95))%nat.

(** [String.prototype.toLowerCase] on one code unit below 256: [A-Z] and
    the Latin-1 capitals U+00C0..U+00DE (U+00D7 is the multiplication
    sign) move up by 32. *)
Definition lower_char (c : ascii) : ascii :=
  let n := code c in
  if (((65 <=? n) && (n <=? 90))
      || ((192 <=? n) && (n <=? 222) && negb (n =? 215)))%nat
  then ascii_of_nat (n + 32) else c.

Fixpoint toLowerCase (s : string) : string :=
  match s with
  | EmptyString => EmptyString
  | String c s' => String (lower_char c) (toLowerCase s')
  end.

(** [strip_prefix p s] is the rest of [s] after the prefix [p], when [s]
    starts with [p]. *)
Fixpoint strip_prefix (p s : string) : option string :=
  match p with
  | EmptyString => Some s
  | String a p' =>
      match s with
      | EmptyString => None
      | String b s' => if Ascii.eqb a b then strip_prefix p' s' else None
      end
  end.

(** [String.prototype.indexOf]; [None] is JavaScript's [-1]. *)
Fixpoint indexOf (s sub : string) : option nat :=
  match strip_prefix sub s with
  | Some _ => Some 0
  | None =>
      match s with
      | EmptyString => None
      | String _ s' => option_map S (indexOf s' sub)
      end
  end.

(** [String.prototype.includes]. *)
Definition includes (s sub : string) : bool :=
  match indexOf s sub with Some _ => true | None => false end.

Fixpoint trimStart (s : string) : string :=
  match s with
  | EmptyString => EmptyString
  | String c s' => if is_space c then trimStart s' else s
  end.

Fixpoint trimEnd (s : string) : string :=
  match s with
  | EmptyString => EmptyString
  | String c s' =>
      match trimEnd s' with
      | EmptyString => if is_space c then EmptyString else String c EmptyString
      | t => String c t
      end
  end.

(** [String.prototype.trim]. *)
Definition trim (s : string) : string := trimEnd (trimStart s).

(** [Array.prototype.join] on an array of strings. *)
Fixpoint join (sep : string) (l : list string) : string :=
  match l with
  | [] => ""
  | [x] => x
  | x :: l' => x +:+ sep +:+ join sep l'
  end.

(** The first [n] characters. *)
Fixpoint take (n : nat) (s : string) : string :=
  match n, s with
  | S n', String c s' => String c (take n' s')
  | _, _ => EmptyString
  end.

(** Every character of [s] satisfies [f]. *)
Fixpoint every (f : ascii -> bool) (s : string) : bool :=
  match s with
  | EmptyString => true
  | String c s' => f c && every f s'
  end.

(** Truthiness of a string and of a number: [""] and [0] are falsy. *)
Definition truthy_string (s : string) : bool :=
  match s with EmptyString => false | _ => true end.

Definition truthy_number (z : Z) : bool := negb (Z.eqb z 0).

End Js.

(** ** Regular expressions

    A backtracking matcher for the fragment of ECMAScript patterns that the
    source uses: literals, one-character classes, greedy and lazy stars of a
    class, sequencing and one capturing group.  Alternatives are tried in
    the order the ECMAScript matcher tries them, and the first complete
    match wins. *)

Module Regex.

Inductive cclass : Type :=
| AnyChar                 (* [\s\S] *)
| Space                   (* \s *)
| Word                    (* [\w] *)
| Char (c : ascii).       (* a literal character, here \n *)

Definition in_class (k : cclass) (c : ascii) : bool :=
  match k with
  | AnyChar => true
  | Space => Js.is_space c
  | Word => Js.is_word c
  | Char a => Ascii.eqb a c
  end.

Inductive regex : Type :=
| Lit (s : string)
| Cls (k : cclass)
| Star (k : cclass)           (* k*  *)
| StarLazy (k : cclass)       (* k*? *)
| Seq (r1 r2 : regex)
| Group (r : regex).          (* ( r ), capture 1 *)

(** The pattern sets capture 1 in every match. *)
Fixpoint sets_group (r : regex) : bool :=
  match r with
  | Group _ => true
  | Seq r1 r2 => sets_group r1 || sets_group r2
  | _ => false
  end.

Definition orelse {A} (x y : option A) : option A :=
  match x with Some _ => x | None => y end.

Section Matcher.
(** The answer of a complete match. *)
Context {A : Type}.

(** Greedy star: take as many characters as possible, give one back at a
    time while the continuation fails. *)
Fixpoint star_greedy (k : cclass) (s : string) (K : string -> option A)
  : option A :=
  match s with
  | String c s' =>
      if in_class k c then orelse (star_greedy k s' K) (K s) else K s
  | EmptyString => K s
  end.

(** Lazy star: try the continuation first, take one more character each
    time it fails. *)
Fixpoint star_lazy (k : cclass) (s : string) (K : string -> option A)
  : option A :=
  match K s with
  | Some a => Some a
  | None =>
      match s with
      | String c s' => if in_class k c then star_lazy k s' K else None
      | EmptyString => None
      end
  end.

(** [exec r s cap K] matches [r] at the start of [s]; [cap] is capture 1
    so far and [K] continues with the rest of the input. *)
Fixpoint exec (r : regex) (s : string) (cap : option string)
    (K : string -> option string -> option A) : option A :=
  match r with
  | Lit p =>
      match Js.strip_prefix p s with
      | Some s' => K s' cap
      | None => None
      end
  | Cls k =>
      match s with
      | String c s' => if in_class k c then K s' cap else None
      | EmptyString => None
      end
  | Star k => star_greedy k s (fun s' => K s' cap)
  | StarLazy k => star_lazy k s (fun s' => K s' cap)
  | Seq r1 r2 => exec r1 s cap (fun s' cap' => exec r2 s' cap' K)
  | Group r1 =>
      exec r1 s cap
        (fun s' _ =>
           K s' (Some (Js.take (String.length s - String.length s') s)))
  end.

End Matcher.

(** What a successful match reports: how many characters it spans and
    capture 1. *)
Record match_result : Type := {
  matched_length : nat;
  group1 : option string
}.

Definition match_at (r : regex) (s : string) : option match_result :=
  exec r s None
    (fun s' cap =>
       Some {| matched_length := String.length s - String.length s';
               group1 := cap |}).

(** [String.prototype.match] with a pattern that has no [g] flag: the
    leftmost position at which the pattern matches. *)
Fixpoint search (r : regex) (s : string) : option match_result :=
  match match_at r s with
  | Some m => Some m
  | None =>
      match s with
      | String _ s' => search r s'
      | EmptyString => None
      end
  end.

(** [String.prototype.split] with a pattern and no limit, for a pattern
    without capturing groups (their captures would be spliced in).
    [split_go r s skip fresh] is the piece that is being collected when the
    scan reaches [s], followed by the later pieces; [skip] counts the
    characters of a separator still to step over, and [fresh] says that the
    piece being collected is still empty.  As in ECMAScript the separator is
    looked for at every position but the end of the input, and an empty
    match splits only when the piece collected so far is not empty. *)
Fixpoint split_go (r : regex) (s : string) (skip : nat) (fresh : bool)
  : string * list string :=
  match s with
  | EmptyString => (EmptyString, [])
  | String c s' =>
      match skip with
      | S n => split_go r s' n true
      | O =>
          match match_at r s with
          | Some m =>
              match matched_length m with
              | S n =>
                  let '(p, ps) := split_go r s' n true in
                  (EmptyString, p :: ps)
              | O =>
                  let '(p, ps) := split_go r s' 0 false in
                  if fresh then (String c p, ps)
                  else (EmptyString, String c p :: ps)
              end
          | None =>
              let '(p, ps) := split_go r s' 0 false in (String c p, ps)
          end
      end
  end.

Definition split (r : regex) (s : string) : list string :=
  match s with
  | EmptyString =>
      match match_at r s with Some _ => [] | None => [s] end
  | _ => let '(p, ps) := split_go r s 0 true in p :: ps
  end.

End Regex.

Import Regex.

Declare Scope regex_scope.
Delimit Scope regex_scope with re.
Bind Scope regex_scope with regex.
Infix ">>" := Seq (at level 60, right associativity) : regex_scope.

(** ** The instruction extractor *)

Definition newline : ascii := "010"%char.
Definition LF : string := String newline EmptyString.

Definition heading : string := "## The Instruction".
Definition fence : string := "```".

(** [/## The Instruction\s*\n[\s\S]*?```[\w]*\n([\s\S]*?)```/] *)
Definition instruction_re : regex :=
  (Lit "## The Instruction" >> Star Space >> Cls (Char newline) >>
   StarLazy AnyChar >> Lit "```" >> Star Word >> Cls (Char newline) >>
   Group (StarLazy AnyChar) >> Lit "```")%re.

(** [/## The Instruction/] *)
Definition heading_re : regex := Lit "## The Instruction".

(** [extractInstruction(markdown)]; [None] is [null].  The group of
    [instruction_re] takes part in every match ([instruction_re_captures]
    below), so [match[1]] is a string whenever [match] is not [null]. *)
Definition extractInstruction (markdown : string) : option string :=
  match search instruction_re markdown with
  | Some match_ => option_map Js.trim (group1 match_)
  | None =>
      let headerMatch := split heading_re markdown in
      if (1 <? length headerMatch)%nat
      then Some (Js.trim (nth 1 headerMatch EmptyString))
      else None
  end.

(** ** Exceptions *)

(** A thrown [Error]; only its [message] is ever read. *)
Record Error : Type := { message : string }.

Inductive result (A : Type) : Type :=
| Ok (a : A)
| Throw (e : Error).
Arguments Ok {A} a.
Arguments Throw {A} e.

Definition bind {A B} (m : result A) (f : A -> result B) : result B :=
  match m with
  | Ok a => f a
  | Throw e => Throw e
  end.

Notation "'await' x <- m 'in' k" := (bind m (fun x => k))
  (at level 10, x name, m at level 100, k at level 200,
   format "'[v' 'await'  x  <-  m  'in' '/' k ']'").

(** [try { m } catch (err) { h err }] *)
Definition try_catch {A} (m : result A) (h : Error -> result A) : result A :=
  match m with
  | Ok a => Ok a
  | Throw e => h e
  end.

(** ** Data model *)

Module Entry.
Record t : Type := {
  slug : string;
  title : string;
  category : string;
  tags : option (list string);
  quality_score : option Z;
  featured : option bool;
  url : string
}.
End Entry.

Record IndexDocument : Type := {
  count : Z;
  categories : list string;
  entries : option (list Entry.t)
}.

(** The arguments object of a tool call: the properties any of the four
    handlers destructures. *)
Module Args.
Record t : Type := {
  q : option string;
  category : option string;
  min_quality : option Z;
  featured_only : option bool;
  slug : option string;
  instruction_only : option bool
}.

(** [{}] *)
Definition empty : t :=
  {| q := None; category := None; min_quality := None;
     featured_only := None; slug := None; instruction_only := None |}.
End Args.

Record Content : Type := { type : string; text : string }.

Record ToolResult : Type := {
  content : list Content;
  isError : option bool
}.

Record ToolRequest : Type := {
  name : string;
  arguments : option Args.t
}.

(** What [fetch] resolves to.  [text] and [json] are the two readings of
    the body; [json] throws when the body does not parse. *)
Module Response.
Record t : Type := {
  status : N;
  text : string;
  json : result IndexDocument
}.

(** [res.ok]: the status is in the range 200-299. *)
Definition ok (res : t) : bool := ((200 <=? status res) && (status res <=? 299))%N.
End Response.

(** ** Template literals and truthiness *)

Definition show_string (o : option string) : string :=
  match o with Some s => s | None => "undefined" end.

Definition show_number (o : option Z) : string :=
  match o with Some z => pretty z | None => "undefined" end.

(** [o || d] for a number [o] *)
Definition number_or (o : option Z) (d : Z) : Z :=
  match o with
  | Some z => if Js.truthy_number z then z else d
  | None => d
  end.

(** [o || []] *)
Definition array_or_empty {A} (o : option (list A)) : list A :=
  match o with Some l => l | None => [] end.

Definition truthy_bool (o : option bool) : bool :=
  match o with Some b => b | None => false end.

(** [if (o) then_ a else else_] for an optional argument [o]. *)
Definition if_truthy {A B} (truthy : A -> bool) (o : option A)
    (then_ : A -> B) (else_ : B) : B :=
  match o with
  | Some a => if truthy a then then_ a else else_
  | None => else_
  end.

Definition BASE_URL : string := "https://openclaw-sandy-eight.vercel.app".
Definition INDEX_URL : string := BASE_URL +:+ "/registry/index.json".

Definition text_result (s : string) : ToolResult :=
  {| content := [ {| type := "text"; text := s |} ]; isError := None |}.

Definition error_result (s : string) : ToolResult :=
  {| content := [ {| type := "text"; text := s |} ]; isError := Some true |}.

(** ** The search pipeline *)

(** The predicate of the keyword filter, [term] being the lowercased
    query. *)
Definition keyword_match (term : string) (e : Entry.t) : bool :=
  Js.includes (Js.toLowerCase (Entry.title e)) term
  || existsb (fun t => Js.includes (Js.toLowerCase t) term)
       (array_or_empty (Entry.tags e))
  || Js.includes (Js.toLowerCase (Entry.slug e)) term
  || Js.includes (Js.toLowerCase (Entry.category e)) term.

Definition category_match (category : string) (e : Entry.t) : bool :=
  String.eqb (Entry.category e) category.

Definition quality_match (min_quality : Z) (e : Entry.t) : bool :=
  (min_quality <=? number_or (Entry.quality_score e) 0)%Z.

Definition featured_match (e : Entry.t) : bool :=
  truthy_bool (Entry.featured e).

(** [results] as it stands after the four [if]s of
    [handleSearchRegistry]. *)
Definition search_results (index : IndexDocument) (a : Args.t)
  : list Entry.t :=
  let results := array_or_empty (entries index) in
  let results :=
    if_truthy Js.truthy_string (Args.q a)
      (fun q => let term := Js.toLowerCase q in
                List.filter (keyword_match term) results)
      results in
  let results :=
    if_truthy Js.truthy_string (Args.category a)
      (fun category => List.filter (category_match category) results)
      results in
  let results :=
    if_truthy Js.truthy_number (Args.min_quality a)
      (fun min_quality => List.filter (quality_match min_quality) results)
      results in
  let results :=
    if truthy_bool (Args.featured_only a)
    then List.filter featured_match results
    else results in
  results.

Definition search_entry_block (e : Entry.t) : string :=
  let lines :=
    [ "**" +:+ Entry.title e +:+ "**";
      "slug: " +:+ Entry.slug e;
      "category: " +:+ Entry.category e;
      "quality: " +:+ show_number (Entry.quality_score e) +:+ "/100"
        +:+ (if truthy_bool (Entry.featured e) then " ★ featured" else "");
      "tags: " +:+ Js.join ", " (array_or_empty (Entry.tags e));
      "url: " +:+ Entry.url e ] in
  Js.join LF lines.

(** The value [handleSearchRegistry] returns for the surviving
    [results]. *)
Definition search_response (index : IndexDocument) (results : list Entry.t)
  : ToolResult :=
  if (length results =? 0)%nat then
    text_result
      ("No results found for your query. Try broader terms or use list_categories to see what's available."
       +:+ LF +:+ LF +:+ "Registry has " +:+ pretty (count index)
       +:+ " total files across " +:+ pretty (length (categories index))
       +:+ " categories.")
  else
    let output := map search_entry_block results in
    text_result
      ("Found " +:+ pretty (length results) +:+ " result"
       +:+ (if (length results =? 1)%nat then "" else "s") +:+ ":"
       +:+ LF +:+ LF
       +:+ Js.join (LF +:+ LF +:+ "---" +:+ LF +:+ LF) output
       +:+ LF +:+ LF
       +:+ "Use get_instruction with the slug to fetch the full file.").

(** ** Category counts *)

Definition categoryInfo : list (string * string) :=
  [ ("system-prompts", "Full agent identity and behavior definitions — the complete personality and rules for an agent");
    ("skills", "Scoped capability modules for specific tasks — drop into any agent to add a capability");
    ("workflows", "Multi-step sequential or conditional process instructions");
    ("tool-definitions", "Function schemas, API patterns, and tool usage instructions");
    ("domain-packs", "Deep field context — industry knowledge, terminology, and domain standards");
    ("safety-filters", "Output validation, content filtering, and harm detection patterns");
    ("orchestration", "Multi-agent coordination and handoff protocols") ].

Fixpoint lookup_info (cat : string) (l : list (string * string))
  : option string :=
  match l with
  | [] => None
  | (k, v) :: l' => if String.eqb k cat then Some v else lookup_info cat l'
  end.

(** [counts] and [categoryInfo] are plain objects: a key that is not an
    own property is looked up in [Object.prototype].  A member of
    [Object.prototype] is a built-in function or, for the accessor
    [__proto__], [Object.prototype] itself. *)
Inductive member : Type :=
| NativeFunction (name : string)
| ObjectPrototype.

Definition object_prototype : list (string * member) :=
  [ ("constructor", NativeFunction "Object");
    ("__defineGetter__", NativeFunction "__defineGetter__");
    ("__defineSetter__", NativeFunction "__defineSetter__");
    ("hasOwnProperty", NativeFunction "hasOwnProperty");
    ("__lookupGetter__", NativeFunction "__lookupGetter__");
    ("__lookupSetter__", NativeFunction "__lookupSetter__");
    ("isPrototypeOf", NativeFunction "isPrototypeOf");
    ("propertyIsEnumerable", NativeFunction "propertyIsEnumerable");
    ("toString", NativeFunction "toString");
    ("valueOf", NativeFunction "valueOf");
    ("__proto__", ObjectPrototype);
    ("toLocaleString", NativeFunction "toLocaleString") ].

Fixpoint lookup_member (key : string) (l : list (string * member))
  : option member :=
  match l with
  | [] => None
  | (k, v) :: l' => if String.eqb k key then Some v else lookup_member key l'
  end.

(** What a key that is not an own property reads. *)
Definition inherited (key : string) : option member :=
  lookup_member key object_prototype.

(** A member inside a template literal. *)
Definition show_member (m : member) : string :=
  match m with
  | NativeFunction name => "function " +:+ name +:+ "() { [native code] }"
  | ObjectPrototype => "[object Object]"
  end.

(** What reading a key of [counts] can give: a number, [NaN], or an
    inherited member. *)
Inductive count_value : Type :=
| Count (n : nat)
| NotANumber
| Inherited (m : member).

(** [counts[key]]; [None] is [undefined]. *)
Definition get_count (counts : gmap string count_value) (key : string)
  : option count_value :=
  match counts !! key with
  | Some v => Some v
  | None => option_map Inherited (inherited key)
  end.

(** [counts[key] = v] for a number [v]: the setter of [__proto__] ignores a
    value that is no object, every other key becomes an own property. *)
Definition set_count (counts : gmap string count_value) (key : string)
    (v : count_value) : gmap string count_value :=
  if String.eqb key "__proto__" then counts else <[key := v]> counts.

(** The value that [++] stores: one more than a number, [NaN] for what is
    no number. *)
Definition increment (v : count_value) : count_value :=
  match v with
  | Count n => Count (S n)
  | _ => NotANumber
  end.

(** The [counts] object after both loops of [handleListCategories]: the
    first assigns 0 under every declared category, the second increments
    what is read under the category of each entry, unless that is
    [undefined]. *)
Definition count_categories (cats : list string) (es : list Entry.t)
  : gmap string count_value :=
  let counts : gmap string count_value :=
    foldl (fun counts cat => set_count counts cat (Count 0)) ∅ cats in
  foldl
    (fun counts e =>
       match get_count counts (Entry.category e) with
       | Some v => set_count counts (Entry.category e) (increment v)
       | None => counts
       end)
    counts es.

(** [counts[cat] || 0], what is printed for [cat]: 0 and [NaN] are
    falsy. *)
Definition reported_count (counts : gmap string count_value) (cat : string)
  : count_value :=
  match get_count counts cat with
  | Some (Count (S n)) => Count (S n)
  | Some (Inherited m) => Inherited m
  | _ => Count 0
  end.

(** A count inside a template literal. *)
Definition show_count (v : count_value) : string :=
  match v with
  | Count n => pretty n
  | NotANumber => "NaN"
  | Inherited m => show_member m
  end.

(** [count === 1] *)
Definition is_one (v : count_value) : bool :=
  match v with
  | Count 1 => true
  | _ => false
  end.

(** [categoryInfo[cat] || ''] as the template literal prints it. *)
Definition description (cat : string) : string :=
  match lookup_info cat categoryInfo with
  | Some d => d
  | None =>
      match inherited cat with
      | Some m => show_member m
      | None => ""
      end
  end.

Definition category_block (counts : gmap string count_value) (cat : string)
  : string :=
  let count := reported_count counts cat in
  let desc := description cat in
  "**" +:+ cat +:+ "** (" +:+ show_count count +:+ " file"
  +:+ (if is_one count then "" else "s") +:+ ")" +:+ LF
  +:+ "  " +:+ desc.

Definition categories_response (index : IndexDocument) : ToolResult :=
  let entries := array_or_empty (entries index) in
  let counts := count_categories (categories index) entries in
  let lines := map (category_block counts) (categories index) in
  text_result
    ("OpenClaw Registry — " +:+ pretty (count index) +:+ " total files"
     +:+ LF +:+ LF +:+ Js.join (LF +:+ LF) lines +:+ LF +:+ LF
     +:+ "Use search_registry with category filter to browse files in any category.").

(** ** Featured listing *)

Definition featured_block (e : Entry.t) : string :=
  "**" +:+ Entry.title e +:+ "** [" +:+ Entry.category e +:+ "]" +:+ LF
  +:+ "slug: " +:+ Entry.slug e +:+ " | quality: "
  +:+ show_number (Entry.quality_score e) +:+ "/100" +:+ LF
  +:+ "tags: " +:+ Js.join ", " (array_or_empty (Entry.tags e)).

Definition featured_response (index : IndexDocument) : ToolResult :=
  let featured := List.filter featured_match (array_or_empty (entries index)) in
  let output := map featured_block featured in
  text_result
    ("Featured files (" +:+ pretty (length featured)
     +:+ " total — quality score 90+):" +:+ LF +:+ LF
     +:+ Js.join (LF +:+ LF) output +:+ LF +:+ LF
     +:+ "Use get_instruction with any slug to fetch the full file.").

(** ** Fetch-one *)

(** Truthiness of what [extractInstruction] returned. *)
Definition truthy_instruction (o : option string) : option string :=
  match o with
  | Some s => if Js.truthy_string s then Some s else None
  | None => None
  end.

Definition instruction_response (slug : option string) (instruction_only : option bool)
    (markdown : string) : ToolResult :=
  if truthy_bool instruction_only then
    let instruction := extractInstruction markdown in
    match truthy_instruction instruction with
    | None =>
        text_result
          ("Could not extract instruction from " +:+ show_string slug
           +:+ ". Returning full file instead:" +:+ LF +:+ LF +:+ markdown)
    | Some instruction =>
        text_result
          ("# Instruction: " +:+ show_string slug +:+ LF +:+ LF
           +:+ "```" +:+ LF +:+ instruction +:+ LF +:+ "```" +:+ LF +:+ LF
           +:+ "Fetched from: " +:+ BASE_URL +:+ "/registry/"
           +:+ show_string slug +:+ ".md")
    end
  else text_result markdown.

(** ** The server: registry client, handlers, dispatcher *)

Section Server.

(** The platform's [fetch], as the registry answers it during one call: a
    response, or a rejection (no connection). *)
Variable fetch : string -> result Response.t.

Definition fetchIndex : result IndexDocument :=
  await res <- fetch INDEX_URL in
  if negb (Response.ok res)
  then Throw {| message := "Registry unavailable: " +:+ pretty (Response.status res) |}
  else Response.json res.

Definition fetchFile (slug : option string) : result string :=
  let url := BASE_URL +:+ "/registry/" +:+ show_string slug +:+ ".md" in
  await res <- fetch url in
  if negb (Response.ok res)
  then Throw {| message := "File not found: " +:+ show_string slug +:+ " ("
                           +:+ pretty (Response.status res) +:+ ")" |}
  else Ok (Response.text res).

Definition handleSearchRegistry (a : Args.t) : result ToolResult :=
  await index <- fetchIndex in
  Ok (search_response index (search_results index a)).

Definition handleGetInstruction (a : Args.t) : result ToolResult :=
  await markdown <- fetchFile (Args.slug a) in
  Ok (instruction_response (Args.slug a) (Args.instruction_only a) markdown).

Definition handleListCategories : result ToolResult :=
  await index <- fetchIndex in
  Ok (categories_response index).

Definition handleGetFeatured : result ToolResult :=
  await index <- fetchIndex in
  Ok (featured_response index).

(** [args || {}] *)
Definition args_or_empty (o : option Args.t) : Args.t :=
  match o with Some a => a | None => Args.empty end.

(** The [switch] inside the dispatcher's [try]. *)
Definition tool_switch (name : string) (args : option Args.t)
  : result ToolResult :=
  if String.eqb name "search_registry" then
    handleSearchRegistry (args_or_empty args)
  else if String.eqb name "get_instruction" then
    handleGetInstruction (args_or_empty args)
  else if String.eqb name "list_categories" then handleListCategories
  else if String.eqb name "get_featured" then handleGetFeatured
  else Ok (error_result ("Unknown tool: " +:+ name)).

(** The handler registered for [CallToolRequestSchema]. *)
Definition CallTool (request : ToolRequest) : result ToolResult :=
  try_catch (tool_switch (name request) (arguments request))
    (fun err => Ok (error_result ("Error: " +:+ message err))).

End Server.

(** The names of the four tools, as [TOOLS] lists them. *)
Definition tool_names : list string :=
  [ "search_registry"; "get_instruction"; "list_categories"; "get_featured" ].

(** The [enum] of [category] in the input schema of [search_registry]. *)
Definition category_enum : list string :=
  [ "system-prompts"; "skills"; "workflows"; "tool-definitions";
    "domain-packs"; "safety-filters"; "orchestration" ].

(** ** Vocabulary of the properties *)

(** An arguments object with one property replaced. *)
Definition with_q (o : option string) (a : Args.t) : Args.t :=
  {| Args.q := o; Args.category := Args.category a;
     Args.min_quality := Args.min_quality a;
     Args.featured_only := Args.featured_only a;
     Args.slug := Args.slug a;
     Args.instruction_only := Args.instruction_only a |}.

Definition with_min_quality (o : option Z) (a : Args.t) : Args.t :=
  {| Args.q := Args.q a; Args.category := Args.category a;
     Args.min_quality := o;
     Args.featured_only := Args.featured_only a;
     Args.slug := Args.slug a;
     Args.instruction_only := Args.instruction_only a |}.

(** The four filters as one predicate: each conjunct is the filter of an
    argument that is truthy, and [true] otherwise. *)
Definition keeps (a : Args.t) (e : Entry.t) : bool :=
  if_truthy Js.truthy_string (Args.q a)
    (fun q => keyword_match (Js.toLowerCase q) e) true
  && if_truthy Js.truthy_string (Args.category a)
       (fun category => category_match category e) true
  && if_truthy Js.truthy_number (Args.min_quality a)
       (fun min_quality => quality_match min_quality e) true
  && (if truthy_bool (Args.featured_only a) then featured_match e else true).

(** The only text item of a result. *)
Definition result_text (r : ToolResult) : string :=
  match content r with
  | [c] => text c
  | _ => ""
  end.

(** The number in what is printed for a category; what is no number
    counts for nothing. *)
Definition number_of (v : count_value) : nat :=
  match v with
  | Count n => n
  | _ => 0
  end.

(** The numbers that list-categories prints, added up. *)
Definition reported_total (index : IndexDocument) : nat :=
  let counts :=
    count_categories (categories index) (array_or_empty (entries index)) in
  list_sum (map (fun cat => number_of (reported_count counts cat))
              (categories index)).

(** The entries of category [cat]. *)
Definition entries_in (cat : string) (es : list Entry.t) : list Entry.t :=
  List.filter (fun e => String.eqb (Entry.category e) cat) es.

(** An entry whose category is one of the declared ones. *)
Definition declared (cats : list string) (e : Entry.t) : bool :=
  existsb (String.eqb (Entry.category e)) cats.

(** Sample registry contents. *)
Module Sample.

Definition entry (slug category : string) (tags : option (list string))
    (quality_score : option Z) (featured : option bool) : Entry.t :=
  {| Entry.slug := slug; Entry.title := "Title of " +:+ slug;
     Entry.category := category; Entry.tags := tags;
     Entry.quality_score := quality_score; Entry.featured := featured;
     Entry.url := BASE_URL +:+ "/registry/" +:+ slug +:+ ".md" |}.

Definition guard : Entry.t :=
  entry "output-guard" "skills" (Some ["safety-filters"; "moderation"])
    (Some 80%Z) None.

Definition triage : Entry.t :=
  entry "tier1-customer-support" "system-prompts" None (Some 95%Z)
    (Some true).

Definition draft : Entry.t :=
  entry "draft-notes" "unsorted" (Some []) None (Some false).

Definition index : IndexDocument :=
  {| count := 3; categories := ["system-prompts"; "skills"];
     entries := Some [guard; triage; draft] |}.


(** An index that declares a category twice. *)
Definition repeated : IndexDocument :=
  {| count := 1; categories := ["skills"; "skills"];
     entries := Some [guard] |}.

Definition respond (status : N) (text : string) (index : IndexDocument)
  : Response.t :=
  {| Response.status := status; Response.text := text;
     Response.json := Ok index |}.

(** A registry that serves the index [index]. *)
Definition indexed (index : IndexDocument) : string -> result Response.t :=
  fun _ => Ok (respond 200 "" index).

(** A registry that serves [index] and the document [text]. *)
Definition serving (text : string) : string -> result Response.t :=
  fun _ => Ok (respond 200 text index).

(** A registry that answers every request with [status]. *)
Definition failing (status : N) : string -> result Response.t :=
  fun _ => Ok (respond status "" index).

(** No connection: [fetch] rejects. *)
Definition offline : string -> result Response.t :=
  fun _ => Throw {| message := "fetch failed" |}.

(** Arguments that supply only [category], as the empty string. *)
Definition empty_category : Args.t :=
  {| Args.q := None; Args.category := Some ""; Args.min_quality := None;
     Args.featured_only := None; Args.slug := None;
     Args.instruction_only := None |}.

(** Arguments of a production search: a keyword, a category and a
    threshold. *)
Definition production : Args.t :=
  {| Args.q := Some "SAFETY"; Args.category := Some "skills";
     Args.min_quality := Some 80%Z; Args.featured_only := Some false;
     Args.slug := None; Args.instruction_only := None |}.

(** Arguments of fetch-one for [slug], instruction only. *)
Definition instruction_of (slug : string) : Args.t :=
  {| Args.q := None; Args.category := None; Args.min_quality := None;
     Args.featured_only := None; Args.slug := Some slug;
     Args.instruction_only := Some true |}.

Definition lines (l : list string) : string := Js.join LF l.

(** A document with a fenced block before the heading and one after. *)
Definition fenced_doc : string :=
  lines [ "# Output guard"; "```"; "before"; "```";
          "## The Instruction"; ""; "```text"; "do X"; "```"; "notes" ].

(** A document whose fenced block carries the language tag [c++]. *)
Definition cpp_doc : string :=
  lines [ "## The Instruction"; "```c++"; "do X"; "```" ].

(** The same block as [fenced_doc]'s, with CR LF line ends. *)
Definition crlf_doc : string :=
  Js.join (String "013" LF) [ "## The Instruction"; "```"; "do X"; "```" ].

(** A document with the heading and plain text after it. *)
Definition plain_doc : string :=
  lines [ "# Output guard"; "## The Instruction"; "  do X  "; "" ].

(** A document that repeats the heading. *)
Definition twice_doc : string :=
  lines [ "## The Instruction"; "foo"; "## The Instruction"; "bar" ].

Definition no_heading_doc : string := lines [ "# Output guard"; "do X" ].

End Sample.

(** ** The tool descriptors *)

(** One entry of [properties] in an input schema. *)
Module Schema.
Record property : Type := {
  type : string;
  description : string;
  enum : option (list string);
  minimum : option Z;
  maximum : option Z
}.

(** [inputSchema] *)
Record t : Type := {
  schema_type : string;
  properties : list (string * property);
  required : option (list string)
}.
End Schema.

Module Tool.
Record t : Type := {
  name : string;
  description : string;
  inputSchema : Schema.t
}.
End Tool.

(** The double quote that some descriptions carry. *)
Definition dq : string := String "034" EmptyString.

Definition plain_property (type description : string) : Schema.property :=
  {| Schema.type := type; Schema.description := description;
     Schema.enum := None; Schema.minimum := None; Schema.maximum := None |}.

Definition TOOLS : list Tool.t :=
  [ {| Tool.name := "search_registry";
       Tool.description := "Search the OpenClaw agent instruction registry. Returns matching instruction files with metadata. Use this to find system prompts, skills, workflows, domain packs, safety filters, and orchestration patterns.";
       Tool.inputSchema :=
         {| Schema.schema_type := "object";
            Schema.properties :=
              [ ("q", plain_property "string"
                        "Keyword search across title, tags, and slug. Optional.");
                ("category",
                 {| Schema.type := "string";
                    Schema.description := "Filter by category. One of: system-prompts, skills, workflows, tool-definitions, domain-packs, safety-filters, orchestration";
                    Schema.enum := Some category_enum;
                    Schema.minimum := None; Schema.maximum := None |});
                ("min_quality",
                 {| Schema.type := "number";
                    Schema.description := "Minimum quality score (0-100). Recommended: 80 for production use.";
                    Schema.enum := None;
                    Schema.minimum := Some 0%Z;
                    Schema.maximum := Some 100%Z |});
                ("featured_only", plain_property "boolean"
                   "If true, return only featured (quality >= 90) files.") ];
            Schema.required := None |} |};
    {| Tool.name := "get_instruction";
       Tool.description := "Fetch a complete instruction file from the OpenClaw registry by slug. Returns the full Markdown file including YAML frontmatter, purpose, usage notes, and the deployable instruction text. The instruction is in the " +:+ dq +:+ "## The Instruction" +:+ dq +:+ " section.";
       Tool.inputSchema :=
         {| Schema.schema_type := "object";
            Schema.properties :=
              [ ("slug", plain_property "string"
                   ("The slug of the instruction file (e.g. " +:+ dq
                    +:+ "tier1-customer-support" +:+ dq +:+ ", " +:+ dq
                    +:+ "structured-web-research" +:+ dq
                    +:+ "). Get slugs from search_registry."));
                ("instruction_only", plain_property "boolean"
                   "If true, return only the deployable instruction text (extracted from the fenced code block). If false, return the full Markdown file. Default: false.") ];
            Schema.required := Some ["slug"] |} |};
    {| Tool.name := "list_categories";
       Tool.description := "List all categories in the OpenClaw registry with file counts and descriptions. Use this to understand what types of instruction files are available.";
       Tool.inputSchema :=
         {| Schema.schema_type := "object"; Schema.properties := [];
            Schema.required := None |} |};
    {| Tool.name := "get_featured";
       Tool.description := "Return all featured instruction files (quality score 90+). These are verified, complete, and production-tested. Good starting point for finding high-quality instructions.";
       Tool.inputSchema :=
         {| Schema.schema_type := "object"; Schema.properties := [];
            Schema.required := None |} |} ].

(** The handler registered for [ListToolsRequestSchema]. *)
Definition ListTools : list Tool.t := TOOLS.

(** ** More vocabulary *)

Definition with_slug (o : option string) (a : Args.t) : Args.t :=
  {| Args.q := Args.q a; Args.category := Args.category a;
     Args.min_quality := Args.min_quality a;
     Args.featured_only := Args.featured_only a;
     Args.slug := o;
     Args.instruction_only := Args.instruction_only a |}.

(** An index with its entries replaced. *)
Definition with_entries (es : list Entry.t) (index : IndexDocument)
  : IndexDocument :=
  {| count := count index; categories := categories index;
     entries := Some es |}.

(** Arguments that supply only [featured_only], as true. *)
Definition featured_only_args : Args.t :=
  {| Args.q := None; Args.category := None; Args.min_quality := None;
     Args.featured_only := Some true; Args.slug := None;
     Args.instruction_only := None |}.

(** Arguments that supply only [category]. *)
Definition category_args (c : string) : Args.t :=
  {| Args.q := None; Args.category := Some c; Args.min_quality := None;
     Args.featured_only := None; Args.slug := None;
     Args.instruction_only := None |}.

(** The address [fetchFile] reads for a slug. *)
Definition document_url (slug : option string) : string :=
  BASE_URL +:+ "/registry/" +:+ show_string slug +:+ ".md".

(** More sample contents. *)
Module Sample2.

(** A registry that serves [Sample.index] and answers a document request
    with [status]. *)
Definition missing_document (status : N) : string -> result Response.t :=
  fun url =>
    if String.eqb url INDEX_URL
    then Ok (Sample.respond 200 "" Sample.index)
    else Ok (Sample.respond status "" Sample.index).

(** A registry whose index body does not parse. *)
Definition garbled : string -> result Response.t :=
  fun _ =>
    Ok {| Response.status := 200; Response.text := "<html>";
          Response.json :=
            Throw {| message := "Unexpected token < in JSON at position 0" |} |}.

(** A registry that serves the index [index] and, for every document,
    [text]. *)
Definition library (index : IndexDocument) (text : string)
  : string -> result Response.t :=
  fun url =>
    if String.eqb url INDEX_URL
    then Ok (Sample.respond 200 "" index)
    else Ok (Sample.respond 200 text index).

(** A registry that answers the index and the document of [slug] as
    [library] does, and rejects every other request. *)
Definition narrow (index : IndexDocument) (slug text : string)
  : string -> result Response.t :=
  fun url =>
    if String.eqb url INDEX_URL
    then Ok (Sample.respond 200 "" index)
    else if String.eqb url (document_url (Some slug))
    then Ok (Sample.respond 200 text index)
    else Throw {| message := "fetch failed" |}.

Definition raw_args (slug : string) : Args.t :=
  {| Args.q := None; Args.category := None; Args.min_quality := None;
     Args.featured_only := None; Args.slug := Some slug;
     Args.instruction_only := None |}.

(** An entry scored below zero, and an index that holds it. *)
Definition below : Entry.t :=
  Sample.entry "below" "skills" None (Some (-5)%Z) None.

Definition negative_index : IndexDocument :=
  {| count := 1; categories := ["skills"]; entries := Some [below] |}.

End Sample2.

(** * Properties *)

(** ** Strings *)

Section StringFacts.

Lemma append_cons (c : ascii) (a b : string) :
  String c a +:+ b = String c (a +:+ b).
Proof. reflexivity. Qed.

Lemma append_nil_l (b : string) : "" +:+ b = b.
Proof. reflexivity. Qed.

Lemma append_nil_r (s : string) : s +:+ "" = s.
Proof.
  induction s as [|c s IH]; [reflexivity|].
  now rewrite append_cons, IH.
Qed.

Lemma append_assoc (a b c : string) : (a +:+ b) +:+ c = a +:+ b +:+ c.
Proof.
  induction a as [|x a IH]; [reflexivity|].
  now rewrite !append_cons, IH.
Qed.

Lemma length_append (a b : string) :
  String.length (a +:+ b) = String.length a + String.length b.
Proof.
  induction a as [|x a IH]; [reflexivity|].
  rewrite append_cons. simpl. now rewrite IH.
Qed.

Lemma strip_prefix_append (p s : string) :
  Js.strip_prefix p (p +:+ s) = Some s.
Proof.
  induction p as [|c p IH]; [reflexivity|].
  rewrite append_cons. simpl. now rewrite Ascii.eqb_refl.
Qed.

Lemma strip_prefix_Some (p s r : string) :
  Js.strip_prefix p s = Some r → s = p +:+ r.
Proof.
  revert s; induction p as [|c p IH]; simpl; intros s H.
  - now injection H as ->.
  - destruct s as [|b s]; [discriminate|].
    destruct (Ascii.eqb c b) eqn:E; [|discriminate].
    apply Ascii.eqb_eq in E; subst b.
    rewrite append_cons. f_equal. now apply IH.
Qed.

(** A failed prefix test stays failed when text is added after at least
    [length p] characters. *)
Lemma strip_prefix_None_append (p s r : string) :
  Js.strip_prefix p s = None → String.length p ≤ String.length s →
  Js.strip_prefix p (s +:+ r) = None.
Proof.
  revert s; induction p as [|c p IH]; simpl; intros s H Hlen.
  - discriminate.
  - destruct s as [|b s]; simpl in *; [lia|].
    rewrite ?append_cons; simpl.
    destruct (Ascii.eqb c b); [apply IH; [assumption | lia] | reflexivity].
Qed.

Lemma indexOf_unfold (s sub : string) :
  Js.indexOf s sub =
  match Js.strip_prefix sub s with
  | Some _ => Some 0
  | None =>
      match s with
      | EmptyString => None
      | String _ s' => option_map S (Js.indexOf s' sub)
      end
  end.
Proof. destruct s; reflexivity. Qed.

Lemma indexOf_None_head (s sub : string) :
  Js.indexOf s sub = None → Js.strip_prefix sub s = None.
Proof.
  rewrite indexOf_unfold. destruct (Js.strip_prefix sub s); congruence.
Qed.

Lemma indexOf_None_tail (c : ascii) (s sub : string) :
  Js.indexOf (String c s) sub = None → Js.indexOf s sub = None.
Proof.
  rewrite indexOf_unfold.
  destruct (Js.strip_prefix sub (String c s)); [discriminate|].
  destruct (Js.indexOf s sub); [discriminate | reflexivity].
Qed.

(** When the first occurrence of [sub] in [String c u +:+ sub] is the one
    at the end, [sub] does not start at [c], and the same holds of [u]. *)
Lemma indexOf_last_step (c : ascii) (u sub : string) :
  Js.indexOf (String c u +:+ sub) sub = Some (String.length (String c u)) →
  Js.strip_prefix sub (String c u +:+ sub) = None
  ∧ Js.indexOf (u +:+ sub) sub = Some (String.length u).
Proof.
  rewrite indexOf_unfold, append_cons.
  destruct (Js.strip_prefix sub (String c (u +:+ sub))); [discriminate|].
  destruct (Js.indexOf (u +:+ sub) sub) as [n|]; simpl; [|discriminate].
  intros [= ->]. split; reflexivity.
Qed.

Lemma includes_here (sub r : string) : Js.includes (sub +:+ r) sub = true.
Proof.
  unfold Js.includes. rewrite indexOf_unfold, strip_prefix_append.
  reflexivity.
Qed.

Lemma includes_cons (c : ascii) (s sub : string) :
  Js.includes s sub = true → Js.includes (String c s) sub = true.
Proof.
  unfold Js.includes. rewrite (indexOf_unfold (String c s)).
  destruct (Js.strip_prefix sub (String c s)); [reflexivity|].
  destruct (Js.indexOf s sub); [reflexivity | discriminate].
Qed.

(** [sub] occurs in whatever is built around it. *)
Lemma includes_middle (a sub b : string) :
  Js.includes (a +:+ sub +:+ b) sub = true.
Proof.
  induction a as [|c a IH].
  - rewrite append_nil_l. apply includes_here.
  - rewrite append_cons. now apply includes_cons.
Qed.

Lemma includes_end (a sub : string) : Js.includes (a +:+ sub) sub = true.
Proof.
  pose proof (includes_middle a sub "") as H.
  now rewrite append_nil_r in H.
Qed.

Lemma includes_empty (s : string) : Js.includes s "" = true.
Proof. unfold Js.includes. destruct s; reflexivity. Qed.

Lemma includes_split (s sub : string) :
  Js.includes s sub = true → ∃ a b, s = a +:+ sub +:+ b.
Proof.
  unfold Js.includes. induction s as [|c s IH]; rewrite indexOf_unfold.
  - destruct (Js.strip_prefix sub "") as [r|] eqn:E; [|discriminate].
    intros _. apply strip_prefix_Some in E. now exists "", r.
  - destruct (Js.strip_prefix sub (String c s)) as [r|] eqn:E.
    + intros _. apply strip_prefix_Some in E. now exists "", r.
    + destruct (Js.indexOf s sub); [|discriminate].
      intros _. destruct IH as (a & b & ->); [reflexivity|].
      now exists (String c a), b.
Qed.

Lemma includes_trans (s t sub : string) :
  Js.includes s t = true → Js.includes t sub = true →
  Js.includes s sub = true.
Proof.
  intros Hs Ht.
  apply includes_split in Hs as (a & b & ->).
  apply includes_split in Ht as (a' & b' & ->).
  rewrite <- (append_assoc a), !append_assoc, <- (append_assoc a a').
  apply includes_middle.
Qed.

Lemma includes_append_r (a t sub : string) :
  Js.includes t sub = true → Js.includes (a +:+ t) sub = true.
Proof. intros H. eapply includes_trans; [apply includes_end | exact H]. Qed.

Lemma includes_append_l (t b sub : string) :
  Js.includes t sub = true → Js.includes (t +:+ b) sub = true.
Proof. intros H. eapply includes_trans; [apply includes_here | exact H]. Qed.

(** Every joined string occurs in the join. *)
Lemma includes_join (sep x : string) (l : list string) :
  In x l → Js.includes (Js.join sep l) x = true.
Proof.
  induction l as [|y l IH]; [intros []|].
  intros [->|Hin].
  - destruct l; simpl.
    + apply (includes_end "" x).
    + apply includes_here.
  - destruct l as [|z l]; [destruct Hin|].
    change (Js.join sep (y :: z :: l))
      with (y +:+ sep +:+ Js.join sep (z :: l)).
    rewrite <- append_assoc.
    apply includes_trans with (t := Js.join sep (z :: l)).
    + apply includes_end.
    + now apply IH.
Qed.

End StringFacts.

(** ** The dispatcher *)

Section DispatcherFacts.

Variable fetch : string → result Response.t.

Lemma tool_switch_unknown (name : string) (args : option Args.t) :
  ¬ In name tool_names →
  tool_switch fetch name args = Ok (error_result ("Unknown tool: " +:+ name)).
Proof.
  intros Hname. unfold tool_switch.
  repeat match goal with
  | |- context [String.eqb name ?t] =>
      destruct (String.eqb_spec name t) as [->|_];
      [exfalso; apply Hname; unfold tool_names; simpl; tauto|]
  end.
  reflexivity.
Qed.

(** A failed index fetch makes [fetchIndex] throw. *)
Lemma fetchIndex_unavailable (res : Response.t) :
  fetch INDEX_URL = Ok res → Response.ok res = false →
  fetchIndex fetch =
  Throw {| message := "Registry unavailable: " +:+ pretty (Response.status res) |}.
Proof. intros Hres Hok. unfold fetchIndex. now rewrite Hres; simpl; rewrite Hok. Qed.

(** C2: the dispatcher returns a result for every request and never
    throws.  A name outside the four tool names yields the error envelope
    "Unknown tool: name", whose text contains the name, and whatever a
    handler throws is caught and reported as "Error: message", with
    isError true. *)
Theorem dispatcher_never_throws (request : ToolRequest) :
  ∃ r : ToolResult,
    CallTool fetch request = Ok r
    ∧ (¬ In (name request) tool_names →
       r = error_result ("Unknown tool: " +:+ name request)
       ∧ isError r = Some true
       ∧ Js.includes (result_text r) (name request) = true)
    ∧ (∀ err : Error,
         tool_switch fetch (name request) (arguments request) = Throw err →
         r = error_result ("Error: " +:+ message err)
         ∧ isError r = Some true).
Proof.
  unfold CallTool, try_catch.
  destruct (tool_switch fetch (name request) (arguments request)) as [r|e] eqn:E.
  - exists r. split; [reflexivity|]. split.
    + intros Hname. rewrite (tool_switch_unknown _ _ Hname) in E.
      injection E as <-. repeat split. apply includes_end.
    + discriminate.
  - eexists. split; [reflexivity|]. split.
    + intros Hname. rewrite (tool_switch_unknown _ _ Hname) in E.
      discriminate.
    + intros err [= <-]. split; reflexivity.
Qed.

(** C8: when the index endpoint answers with a non-success status, the
    three handlers that read the index throw "Registry unavailable:
    status", and the dispatcher turns each into a result with isError true
    whose text contains the status code. *)
Theorem index_failure_surfaces (res : Response.t) (args : option Args.t)
    (tool : string) :
  fetch INDEX_URL = Ok res →
  Response.ok res = false →
  In tool ["search_registry"; "list_categories"; "get_featured"] →
  (∀ a, handleSearchRegistry fetch a
        = Throw {| message := "Registry unavailable: "
                              +:+ pretty (Response.status res) |})
  ∧ handleListCategories fetch
    = Throw {| message := "Registry unavailable: "
                          +:+ pretty (Response.status res) |}
  ∧ handleGetFeatured fetch
    = Throw {| message := "Registry unavailable: "
                          +:+ pretty (Response.status res) |}
  ∧ ∃ r : ToolResult,
      CallTool fetch {| name := tool; arguments := args |} = Ok r
      ∧ isError r = Some true
      ∧ result_text r =
        "Error: Registry unavailable: " +:+ pretty (Response.status res)
      ∧ Js.includes (result_text r) (pretty (Response.status res)) = true.
Proof.
  intros Hres Hok Htool.
  pose proof (fetchIndex_unavailable res Hres Hok) as Hidx.
  assert (Hsearch : ∀ a, handleSearchRegistry fetch a
            = Throw {| message := "Registry unavailable: "
                                  +:+ pretty (Response.status res) |}).
  { intros a. unfold handleSearchRegistry. now rewrite Hidx. }
  assert (Hlist : handleListCategories fetch
            = Throw {| message := "Registry unavailable: "
                                  +:+ pretty (Response.status res) |}).
  { unfold handleListCategories. now rewrite Hidx. }
  assert (Hfeat : handleGetFeatured fetch
            = Throw {| message := "Registry unavailable: "
                                  +:+ pretty (Response.status res) |}).
  { unfold handleGetFeatured. now rewrite Hidx. }
  split; [exact Hsearch|]. split; [exact Hlist|]. split; [exact Hfeat|].
  exists (error_result
            ("Error: Registry unavailable: " +:+ pretty (Response.status res))).
  split; [|split; [reflexivity|split; [reflexivity|]]].
  - unfold CallTool, tool_switch.
    destruct Htool as [<-|[<-|[<-|[]]]]; simpl;
      rewrite ?Hsearch, ?Hlist, ?Hfeat; reflexivity.
  - simpl. apply (includes_end "Error: Registry unavailable: ").
Qed.

(** C5: when the document of a slug is fetched and the extractor returns
    nothing, fetch-one with instruction_only true answers with the notice
    that extraction failed followed by the whole document; the result is
    not an error (isError is not set), also at the dispatcher. *)
Theorem extraction_miss_returns_document (slug : string) (a : Args.t)
    (markdown : string) :
  Args.slug a = Some slug →
  Args.instruction_only a = Some true →
  fetchFile fetch (Some slug) = Ok markdown →
  extractInstruction markdown = None →
  ∃ r : ToolResult,
    handleGetInstruction fetch a = Ok r
    ∧ CallTool fetch {| name := "get_instruction"; arguments := Some a |} = Ok r
    ∧ isError r = None
    ∧ result_text r =
      ("Could not extract instruction from " +:+ slug
       +:+ ". Returning full file instead:" +:+ LF +:+ LF) +:+ markdown
    ∧ Js.includes (result_text r) markdown = true.
Proof.
  intros Hslug Honly Hfile Hmiss.
  assert (handleGetInstruction fetch a =
          Ok (text_result
                (("Could not extract instruction from " +:+ slug
                  +:+ ". Returning full file instead:" +:+ LF +:+ LF)
                 +:+ markdown))) as Hget.
  { unfold handleGetInstruction, instruction_response.
    rewrite Hslug, Hfile, Honly; simpl. rewrite Hmiss; simpl.
    now rewrite <- !append_assoc. }
  eexists. split; [exact Hget|]. split; [|split; [reflexivity|split]].
  - unfold CallTool, tool_switch; simpl. now rewrite Hget.
  - reflexivity.
  - simpl. apply includes_end.
Qed.

(** C10: the empty string for q, and 0 for min_quality, are answered as if
    the argument were absent: the same entries survive and the handler
    returns the same value. *)
Theorem falsy_arguments_are_unobservable (a : Args.t) :
  (∀ index, search_results index (with_q (Some "") a)
            = search_results index (with_q None a))
  ∧ (∀ index, search_results index (with_min_quality (Some 0%Z) a)
              = search_results index (with_min_quality None a))
  ∧ handleSearchRegistry fetch (with_q (Some "") a)
    = handleSearchRegistry fetch (with_q None a)
  ∧ handleSearchRegistry fetch (with_min_quality (Some 0%Z) a)
    = handleSearchRegistry fetch (with_min_quality None a).
Proof. repeat split. Qed.

End DispatcherFacts.

(** ** The search filters *)

Section SearchFacts.

Lemma filter_all (A : Type) (l : list A) : List.filter (fun _ => true) l = l.
Proof. induction l as [|x l IH]; simpl; [reflexivity | now rewrite IH]. Qed.

Lemma filter_filter (A : Type) (f g : A → bool) (l : list A) :
  List.filter f (List.filter g l) = List.filter (fun x => g x && f x) l.
Proof.
  induction l as [|x l IH]; simpl; [reflexivity|].
  destruct (g x); simpl; [destruct (f x)|]; now rewrite IH.
Qed.

(** A guarded filter is a filter by a guarded predicate. *)
Lemma if_truthy_filter (A B : Type) (truthy : A → bool) (o : option A)
    (f : A → B → bool) (l : list B) :
  if_truthy truthy o (fun x => List.filter (f x) l) l
  = List.filter (fun e => if_truthy truthy o (fun x => f x e) true) l.
Proof.
  unfold if_truthy. destruct o as [x|]; [destruct (truthy x)|];
    try reflexivity; symmetry; apply filter_all.
Qed.

(** The four guarded filters in sequence keep exactly the entries that
    pass all of them, in the order of the index. *)
Lemma search_results_keeps (index : IndexDocument) (a : Args.t) :
  search_results index a
  = List.filter (keeps a) (array_or_empty (entries index)).
Proof.
  unfold search_results, keeps.
  rewrite (if_truthy_filter _ _ _ (Args.q a)
             (fun q => keyword_match (Js.toLowerCase q))).
  rewrite (if_truthy_filter _ _ _ (Args.category a) category_match).
  rewrite (if_truthy_filter _ _ _ (Args.min_quality a) quality_match).
  destruct (truthy_bool (Args.featured_only a));
    rewrite !filter_filter; apply filter_ext; intros e;
    now rewrite ?andb_true_r, ?andb_assoc.
Qed.

Lemma search_results_In (index : IndexDocument) (a : Args.t) (e : Entry.t) :
  In e (search_results index a)
  ↔ In e (array_or_empty (entries index)) ∧ keeps a e = true.
Proof. rewrite search_results_keeps. apply filter_In. Qed.

Lemma keyword_match_empty (e : Entry.t) : keyword_match "" e = true.
Proof. unfold keyword_match. now rewrite includes_empty. Qed.

Lemma toLowerCase_empty (q : string) :
  Js.truthy_string q = false → Js.toLowerCase q = "".
Proof. destruct q; [reflexivity | discriminate]. Qed.

Lemma truthy_string_spec (s : string) : Js.truthy_string s = true ↔ s ≠ "".
Proof. destruct s; simpl; split; congruence. Qed.

Lemma truthy_number_spec (z : Z) : Js.truthy_number z = true ↔ z ≠ 0%Z.
Proof.
  unfold Js.truthy_number. rewrite negb_true_iff, Z.eqb_neq. reflexivity.
Qed.

Lemma truthy_bool_spec (o : option bool) : truthy_bool o = true ↔ o = Some true.
Proof. destruct o as [[]|]; simpl; split; congruence. Qed.

(** What [keeps] asks of an entry, argument by argument. *)
Lemma keeps_spec (a : Args.t) (e : Entry.t) :
  keeps a e = true
  ↔ (∀ q, Args.q a = Some q → keyword_match (Js.toLowerCase q) e = true)
    ∧ (∀ c, Args.category a = Some c → c ≠ "" → Entry.category e = c)
    ∧ (∀ m, Args.min_quality a = Some m → m ≠ 0%Z →
            (m ≤ number_or (Entry.quality_score e) 0)%Z)
    ∧ (Args.featured_only a = Some true → Entry.featured e = Some true).
Proof.
  unfold keeps, if_truthy, category_match, quality_match, featured_match.
  rewrite !andb_true_iff.
  assert (Hq :
    (match Args.q a with
     | Some q => if Js.truthy_string q
                 then keyword_match (Js.toLowerCase q) e else true
     | None => true
     end = true)
    ↔ ∀ q, Args.q a = Some q → keyword_match (Js.toLowerCase q) e = true).
  { destruct (Args.q a) as [q|]; [|split; [discriminate | reflexivity]].
    destruct (Js.truthy_string q) eqn:Eq.
    - split; [now intros H ? [= <-] | auto].
    - split; [|reflexivity]. intros _ ? [= <-].
      rewrite (toLowerCase_empty _ Eq). apply keyword_match_empty. }
  assert (Hc :
    (match Args.category a with
     | Some c => if Js.truthy_string c
                 then String.eqb (Entry.category e) c else true
     | None => true
     end = true)
    ↔ ∀ c, Args.category a = Some c → c ≠ "" → Entry.category e = c).
  { destruct (Args.category a) as [c|]; [|split; [discriminate | reflexivity]].
    destruct (Js.truthy_string c) eqn:Ec.
    - rewrite String.eqb_eq. split; [now intros H ? [= <-] |].
      intros H. apply H; [reflexivity|]. now apply truthy_string_spec.
    - split; [|reflexivity]. intros _ ? [= <-] Hne.
      apply truthy_string_spec in Hne. congruence. }
  assert (Hm :
    (match Args.min_quality a with
     | Some m => if Js.truthy_number m
                 then (m <=? number_or (Entry.quality_score e) 0)%Z else true
     | None => true
     end = true)
    ↔ ∀ m, Args.min_quality a = Some m → m ≠ 0%Z →
           (m ≤ number_or (Entry.quality_score e) 0)%Z).
  { destruct (Args.min_quality a) as [m|];
      [|split; [discriminate | reflexivity]].
    destruct (Js.truthy_number m) eqn:Em.
    - rewrite Z.leb_le. split; [now intros H ? [= <-] |].
      intros H. apply H; [reflexivity|]. now apply truthy_number_spec.
    - split; [|reflexivity]. intros _ ? [= <-] Hne.
      apply truthy_number_spec in Hne. congruence. }
  assert (Hf :
    ((if truthy_bool (Args.featured_only a)
      then truthy_bool (Entry.featured e) else true) = true)
    ↔ (Args.featured_only a = Some true → Entry.featured e = Some true)).
  { destruct (truthy_bool (Args.featured_only a)) eqn:Ef.
    - apply truthy_bool_spec in Ef. rewrite truthy_bool_spec. tauto.
    - split; [|reflexivity]. intros _ H.
      apply truthy_bool_spec in H. congruence. }
  rewrite Hq, Hc, Hm, Hf. tauto.
Qed.

(** On the inputs that the schema and the index format declare - a
    category from the enumeration, scores that are not negative - a
    category or a threshold that is supplied is always satisfied by the
    listed entries, whether or not its guard let the filter run. *)
Lemma search_on_declared_inputs (index : IndexDocument) (a : Args.t) :
  (∀ c, Args.category a = Some c → In c category_enum) →
  (∀ e z, In e (array_or_empty (entries index)) →
          Entry.quality_score e = Some z → (0 ≤ z)%Z) →
  ∀ e, In e (search_results index a) →
       (∀ c, Args.category a = Some c → Entry.category e = c)
       ∧ (∀ m, Args.min_quality a = Some m →
               (m ≤ number_or (Entry.quality_score e) 0)%Z).
Proof.
  intros Hcat Hscore e He.
  apply search_results_In in He as [Hin Hkeep].
  apply keeps_spec in Hkeep as (_ & Hc & Hm & _). split.
  - intros c Hsome. apply Hc; [exact Hsome|].
    specialize (Hcat c Hsome). unfold category_enum in Hcat. simpl in Hcat.
    intros ->. intuition discriminate.
  - intros m Hsome. destruct (Z.eq_dec m 0%Z) as [->|Hne]; [|now apply Hm].
    unfold number_or. destruct (Entry.quality_score e) as [z|] eqn:Ez; [|lia].
    destruct (Js.truthy_number z); [|lia]. now apply (Hscore e z).
Qed.

Lemma result_text_text_result (s : string) :
  result_text (text_result s) = s.
Proof. reflexivity. Qed.

(** A query narrows what is listed without it by the keyword filter. *)
Lemma with_q_In (index : IndexDocument) (a : Args.t) (q : string)
    (e : Entry.t) :
  In e (search_results index (with_q (Some q) a))
  ↔ In e (search_results index (with_q None a))
    ∧ keyword_match (Js.toLowerCase q) e = true.
Proof.
  rewrite !search_results_In.
  unfold keeps, with_q, if_truthy at 1 4; simpl.
  destruct (Js.truthy_string q) eqn:Eq.
  - rewrite !andb_true_iff. tauto.
  - rewrite (toLowerCase_empty _ Eq), keyword_match_empty. tauto.
Qed.

(** A threshold other than 0 narrows what is listed without it by the
    quality filter. *)
Lemma with_min_quality_In (index : IndexDocument) (a : Args.t) (m : Z)
    (e : Entry.t) :
  m ≠ 0%Z →
  In e (search_results index (with_min_quality (Some m) a))
  ↔ In e (search_results index (with_min_quality None a))
    ∧ (m ≤ number_or (Entry.quality_score e) 0)%Z.
Proof.
  intros Hm. rewrite !search_results_In.
  unfold keeps, with_min_quality, if_truthy at 3 6; simpl.
  apply truthy_number_spec in Hm. rewrite Hm.
  unfold quality_match. rewrite !andb_true_iff, Z.leb_le. tauto.
Qed.

Variable fetch : string → result Response.t.

(** C1, as the code has it: the listed entries are the entries of the
    index that pass the keyword filter when q is supplied, the category
    filter when category is supplied and not empty, the quality filter
    when min_quality is supplied and not 0, and the featured filter when
    featured_only is true.  The filters compose conjunctively, the order of
    the index is kept, and the text of the result carries the block of
    every surviving entry: nothing is paged away. *)
Theorem search_conjunction_law (index : IndexDocument) (a : Args.t) :
  fetchIndex fetch = Ok index →
  (∀ e, In e (search_results index a)
        ↔ In e (array_or_empty (entries index))
          ∧ (∀ q, Args.q a = Some q →
                  keyword_match (Js.toLowerCase q) e = true)
          ∧ (∀ c, Args.category a = Some c → c ≠ "" → Entry.category e = c)
          ∧ (∀ m, Args.min_quality a = Some m → m ≠ 0%Z →
                  (m ≤ number_or (Entry.quality_score e) 0)%Z)
          ∧ (Args.featured_only a = Some true →
             Entry.featured e = Some true))
  ∧ search_results index a
    = List.filter (keeps a) (array_or_empty (entries index))
  ∧ handleSearchRegistry fetch a
    = Ok (search_response index (search_results index a))
  ∧ (∀ e, In e (search_results index a) →
          Js.includes
            (result_text (search_response index (search_results index a)))
            (search_entry_block e) = true).
Proof.
  intros Hidx. split; [|split; [|split]].
  - intros e. rewrite search_results_In, keeps_spec. reflexivity.
  - apply search_results_keeps.
  - unfold handleSearchRegistry. now rewrite Hidx.
  - intros e He. unfold search_response.
    destruct (search_results index a) as [|x l] eqn:E; [destruct He|].
    change (length (x :: l) =? 0)%nat with false. cbv iota zeta.
    rewrite result_text_text_result.
    do 7 apply includes_append_r. apply includes_append_l.
    apply includes_join. now apply in_map.
Qed.

Lemma handleSearchRegistry_value (index : IndexDocument) (a : Args.t) :
  fetchIndex fetch = Ok index →
  handleSearchRegistry fetch a
  = Ok (search_response index (search_results index a)).
Proof. intros Hidx. unfold handleSearchRegistry. now rewrite Hidx. Qed.

(** The block of a listed entry stands in the text of the answer. *)
Lemma search_response_lists (index : IndexDocument) (l : list Entry.t)
    (e : Entry.t) :
  In e l →
  Js.includes (result_text (search_response index l)) (search_entry_block e)
  = true.
Proof.
  intros He. unfold search_response.
  destruct l as [|x l]; [destruct He|].
  change (length (x :: l) =? 0)%nat with false. cbv iota zeta.
  rewrite result_text_text_result.
  do 7 apply includes_append_r. apply includes_append_l.
  apply includes_join. now apply in_map.
Qed.

(** C6: with min_quality 80 (and with any threshold other than 0) the
    search lists an entry exactly when it is an entry of the index, passes
    the filters of the other arguments and has a quality_score, taken as 0
    when absent, of at least the threshold.  So an entry without a score
    or with a score below 80 is never listed, and an entry of the index
    that scores exactly 80 and passes the other filters is listed.  The
    handler answers with exactly that list, and the block of a listed entry
    stands in its text. *)
Theorem min_quality_threshold (index : IndexDocument) (a : Args.t)
    (e : Entry.t) :
  fetchIndex fetch = Ok index →
  (∀ m, m ≠ 0%Z →
        (In e (search_results index (with_min_quality (Some m) a))
         ↔ In e (array_or_empty (entries index))
           ∧ keeps (with_min_quality None a) e = true
           ∧ (m ≤ number_or (Entry.quality_score e) 0)%Z))
  ∧ (In e (search_results index (with_min_quality (Some 80%Z) a))
     ↔ In e (array_or_empty (entries index))
       ∧ keeps (with_min_quality None a) e = true
       ∧ (80 ≤ number_or (Entry.quality_score e) 0)%Z)
  ∧ (Entry.quality_score e = None →
     ¬ In e (search_results index (with_min_quality (Some 80%Z) a)))
  ∧ (∀ s, Entry.quality_score e = Some s → (s < 80)%Z →
          ¬ In e (search_results index (with_min_quality (Some 80%Z) a)))
  ∧ (Entry.quality_score e = Some 80%Z →
     In e (array_or_empty (entries index)) →
     keeps (with_min_quality None a) e = true →
     In e (search_results index (with_min_quality (Some 80%Z) a)))
  ∧ handleSearchRegistry fetch (with_min_quality (Some 80%Z) a)
    = Ok (search_response index
            (search_results index (with_min_quality (Some 80%Z) a)))
  ∧ (In e (search_results index (with_min_quality (Some 80%Z) a)) →
     Js.includes
       (result_text
          (search_response index
             (search_results index (with_min_quality (Some 80%Z) a))))
       (search_entry_block e) = true).
Proof.
  intros Hidx.
  assert (H : ∀ m, m ≠ 0%Z →
    (In e (search_results index (with_min_quality (Some m) a))
     ↔ In e (array_or_empty (entries index))
       ∧ keeps (with_min_quality None a) e = true
       ∧ (m ≤ number_or (Entry.quality_score e) 0)%Z)).
  { intros m Hm. rewrite (with_min_quality_In _ _ _ _ Hm), search_results_In.
    tauto. }
  split; [exact H|]. split; [apply H; discriminate|].
  split; [|split; [|split; [|split]]].
  - intros Hs Hin. apply H in Hin as (_ & _ & Hin); [|discriminate].
    rewrite Hs in Hin. simpl in Hin. lia.
  - intros s Hs Hlt Hin. apply H in Hin as (_ & _ & Hin); [|discriminate].
    rewrite Hs in Hin. unfold number_or in Hin.
    destruct (Js.truthy_number s); lia.
  - intros Hs Hin Hkeep. apply H; [discriminate|].
    split; [exact Hin|]. split; [exact Hkeep|]. rewrite Hs. simpl. lia.
  - now apply handleSearchRegistry_value.
  - apply search_response_lists.
Qed.

(** C7: with a query q the search lists an entry exactly when it is an
    entry of the index, passes the filters of the other arguments, and
    lowercased q occurs in its lowercased title, slug or category, or in
    one of its lowercased tags.  The query SAFETY lists every such entry
    that is tagged safety-filters.  The handler answers with exactly that
    list, and the block of a listed entry stands in its text. *)
Theorem keyword_filter_ignores_case (index : IndexDocument) (a : Args.t)
    (q : string) (e : Entry.t) :
  fetchIndex fetch = Ok index →
  (In e (search_results index (with_q (Some q) a))
   ↔ In e (array_or_empty (entries index))
     ∧ keeps (with_q None a) e = true
     ∧ (Js.includes (Js.toLowerCase (Entry.title e)) (Js.toLowerCase q) = true
        ∨ Js.includes (Js.toLowerCase (Entry.slug e)) (Js.toLowerCase q) = true
        ∨ Js.includes (Js.toLowerCase (Entry.category e)) (Js.toLowerCase q)
          = true
        ∨ ∃ t, In t (array_or_empty (Entry.tags e))
               ∧ Js.includes (Js.toLowerCase t) (Js.toLowerCase q) = true))
  ∧ (In "safety-filters" (array_or_empty (Entry.tags e)) →
     In e (array_or_empty (entries index)) →
     keeps (with_q None a) e = true →
     In e (search_results index (with_q (Some "SAFETY") a)))
  ∧ handleSearchRegistry fetch (with_q (Some q) a)
    = Ok (search_response index (search_results index (with_q (Some q) a)))
  ∧ (In e (search_results index (with_q (Some q) a)) →
     Js.includes
       (result_text
          (search_response index
             (search_results index (with_q (Some q) a))))
       (search_entry_block e) = true).
Proof.
  intros Hidx.
  assert (Hk : ∀ t : string,
    keyword_match t e = true
    ↔ (Js.includes (Js.toLowerCase (Entry.title e)) t = true
       ∨ Js.includes (Js.toLowerCase (Entry.slug e)) t = true
       ∨ Js.includes (Js.toLowerCase (Entry.category e)) t = true
       ∨ ∃ x, In x (array_or_empty (Entry.tags e))
              ∧ Js.includes (Js.toLowerCase x) t = true)).
  { intros t. unfold keyword_match.
    rewrite !orb_true_iff, existsb_exists. tauto. }
  assert (H : ∀ q0 : string,
    In e (search_results index (with_q (Some q0) a))
    ↔ In e (array_or_empty (entries index))
      ∧ keeps (with_q None a) e = true
      ∧ keyword_match (Js.toLowerCase q0) e = true).
  { intros q0. rewrite with_q_In, search_results_In. tauto. }
  split; [|split; [|split]].
  - rewrite H, Hk. reflexivity.
  - intros Htag Hin Hkeep. apply H. split; [exact Hin|].
    split; [exact Hkeep|]. apply Hk. right; right; right.
    exists "safety-filters". split; [exact Htag | reflexivity].
  - now apply handleSearchRegistry_value.
  - apply search_response_lists.
Qed.

End SearchFacts.

(** ** Category counts *)

Section CategoryFacts.

Implicit Types (cats : list string) (es : list Entry.t) (c : string).
Implicit Types (m : gmap string count_value).

Lemma get_count_own m c (v : count_value) :
  m !! c = Some v → get_count m c = Some v.
Proof. intros H. unfold get_count. now rewrite H. Qed.

(** No assignment gives [counts] an own property [__proto__]. *)
Lemma set_count_proto m c (v : count_value) :
  set_count m c v !! "__proto__" = m !! "__proto__".
Proof.
  unfold set_count. destruct (String.eqb_spec c "__proto__") as [_|Hne];
    [reflexivity|].
  now apply lookup_insert_ne.
Qed.

Lemma set_count_lookup m c (v : count_value) :
  c ≠ "__proto__" → set_count m c v !! c = Some v.
Proof.
  intros Hc. unfold set_count.
  destruct (String.eqb_spec c "__proto__") as [E|_]; [contradiction|].
  apply lookup_insert_eq.
Qed.

Lemma set_count_lookup_ne m c x (v : count_value) :
  x ≠ c → set_count m x v !! c = m !! c.
Proof.
  intros Hne. unfold set_count.
  destruct (String.eqb x "__proto__"); [reflexivity|].
  now apply lookup_insert_ne.
Qed.

(** After the first loop every declared category other than [__proto__]
    counts 0. *)
Lemma init_counts_lookup cats m c :
  c ≠ "__proto__" →
  foldl (fun counts cat => set_count counts cat (Count 0)) m cats !! c
  = if existsb (String.eqb c) cats then Some (Count 0) else m !! c.
Proof.
  intros Hc. revert m; induction cats as [|x cats IH]; intros m; simpl;
    [reflexivity|].
  rewrite IH. destruct (existsb (String.eqb c) cats).
  - now rewrite orb_true_r.
  - rewrite orb_false_r. destruct (String.eqb_spec c x) as [<-|Hne].
    + now apply set_count_lookup.
    + apply set_count_lookup_ne. congruence.
Qed.

Lemma init_counts_proto cats m :
  foldl (fun counts cat => set_count counts cat (Count 0)) m cats
    !! "__proto__"
  = m !! "__proto__".
Proof.
  revert m; induction cats as [|x cats IH]; intros m; simpl; [reflexivity|].
  now rewrite IH, set_count_proto.
Qed.

(** The second loop adds to the number under a key the number of entries
    of that category. *)
Lemma count_loop_lookup es m c (n : nat) :
  c ≠ "__proto__" →
  m !! c = Some (Count n) →
  foldl
    (fun counts e =>
       match get_count counts (Entry.category e) with
       | Some v => set_count counts (Entry.category e) (increment v)
       | None => counts
       end) m es !! c
  = Some (Count (n + length (entries_in c es))).
Proof.
  intros Hc. revert m n; induction es as [|e es IH]; intros m n Hm; simpl.
  - rewrite Hm. do 2 f_equal. lia.
  - unfold entries_in; simpl.
    destruct (String.eqb_spec (Entry.category e) c) as [->|Hne].
    + rewrite (get_count_own _ _ _ Hm).
      rewrite (IH _ (S n)); [|now apply set_count_lookup].
      simpl. do 2 f_equal. unfold entries_in. lia.
    + apply IH.
      destruct (get_count m (Entry.category e)); [|exact Hm].
      now rewrite set_count_lookup_ne.
Qed.

Lemma count_loop_proto es m :
  foldl
    (fun counts e =>
       match get_count counts (Entry.category e) with
       | Some v => set_count counts (Entry.category e) (increment v)
       | None => counts
       end) m es !! "__proto__"
  = m !! "__proto__".
Proof.
  revert m; induction es as [|e es IH]; intros m; simpl; [reflexivity|].
  rewrite IH. destruct (get_count m (Entry.category e)); [|reflexivity].
  apply set_count_proto.
Qed.

(** What is printed for a declared category other than [__proto__] is the
    number of entries of that category; nothing is printed from entries of
    other categories. *)
Lemma reported_count_declared cats es c :
  In c cats →
  c ≠ "__proto__" →
  reported_count (count_categories cats es) c
  = Count (length (entries_in c es)).
Proof.
  intros Hin Hc. unfold reported_count, get_count, count_categories.
  rewrite (count_loop_lookup es _ c 0 Hc).
  - now destruct (length (entries_in c es)).
  - rewrite (init_counts_lookup _ _ _ Hc).
    replace (existsb (String.eqb c) cats) with true; [reflexivity|].
    symmetry. apply existsb_exists. exists c. now rewrite String.eqb_refl.
Qed.

(** Under [__proto__] the code reads [Object.prototype], whatever the
    index holds. *)
Lemma reported_count_proto cats es :
  reported_count (count_categories cats es) "__proto__"
  = Inherited ObjectPrototype.
Proof.
  unfold reported_count, get_count, count_categories.
  now rewrite count_loop_proto, init_counts_proto, lookup_empty.
Qed.


Lemma declared_In cats (e : Entry.t) :
  declared cats e = true ↔ In (Entry.category e) cats.
Proof.
  unfold declared. rewrite existsb_exists. split.
  - intros (x & Hx & Heq). apply String.eqb_eq in Heq. now subst.
  - intros H. exists (Entry.category e). now rewrite String.eqb_refl.
Qed.







End CategoryFacts.

(** ** The matcher *)

Section MatcherFacts.

Context {A : Type}.
Implicit Types (K : string → option A) (s p u r : string).

Lemma orelse_None_r (x : option A) : orelse x None = x.
Proof. now destruct x. Qed.

Lemma star_lazy_unfold (k : cclass) s K :
  star_lazy k s K =
  match K s with
  | Some a => Some a
  | None =>
      match s with
      | String c s' => if in_class k c then star_lazy k s' K else None
      | EmptyString => None
      end
  end.
Proof. destruct s; reflexivity. Qed.

Lemma star_greedy_cons (k : cclass) (c : ascii) s K :
  star_greedy k (String c s) K =
  if in_class k c then orelse (star_greedy k s K) (K (String c s))
  else K (String c s).
Proof. reflexivity. Qed.

(** The lazy star of [[\s\S]] stops at the first occurrence of the
    literal that follows it, when the rest of the pattern matches there. *)
Lemma star_lazy_until p u r (G : string → string → option A) (v : A) :
  Js.indexOf (u +:+ p) p = Some (String.length u) →
  G (p +:+ r) r = Some v →
  star_lazy AnyChar (u +:+ p +:+ r)
    (fun s' => match Js.strip_prefix p s' with
               | Some s'' => G s' s''
               | None => None
               end) = Some v.
Proof.
  intros Hu HG. induction u as [|c u IH].
  - rewrite append_nil_l, star_lazy_unfold, strip_prefix_append, HG.
    reflexivity.
  - apply indexOf_last_step in Hu as [Hc Hu].
    rewrite star_lazy_unfold.
    rewrite <- append_assoc, strip_prefix_None_append; [|exact Hc|].
    + rewrite append_assoc, append_cons. simpl. now apply IH.
    + rewrite length_append. lia.
Qed.

(** The greedy star of [[\w]] before a line feed takes the whole tag. *)
Lemma star_greedy_word_newline (tag r : string) K :
  Js.every Js.is_word tag = true →
  star_greedy Word (tag +:+ String newline r)
    (fun s => match s with
              | String c s' => if Ascii.eqb newline c then K s' else None
              | EmptyString => None
              end) = K r.
Proof.
  intros Htag. induction tag as [|c tag IH].
  - reflexivity.
  - simpl in Htag. apply andb_true_iff in Htag as [Hc Htag].
    rewrite append_cons, star_greedy_cons. cbn [in_class].
    rewrite Hc, (IH Htag).
    destruct (Ascii.eqb_spec newline c) as [<-|_]; [discriminate Hc|].
    apply orelse_None_r.
Qed.

Section SpaceThenNewline.

Variables (R : string → option A) (r : string) (v : A).

(** What follows the line feed matches, with answer [v], from every
    position before the first fence. *)
Hypothesis R_matches :
  ∀ u, Js.indexOf (u +:+ fence) fence = Some (String.length u) →
       R (u +:+ fence +:+ r) = Some v.

Local Abbreviation after_newline :=
  (fun s => match s with
            | String c s' => if Ascii.eqb newline c then R s' else None
            | EmptyString => None
            end).

Lemma star_greedy_space_mid (mid : string) :
  Js.indexOf (mid +:+ fence) fence = Some (String.length mid) →
  star_greedy Space (mid +:+ fence +:+ r) after_newline = None
  ∨ star_greedy Space (mid +:+ fence +:+ r) after_newline = Some v.
Proof.
  induction mid as [|c mid IH]; intros Hmid.
  - left. reflexivity.
  - pose proof Hmid as Hstep.
    apply indexOf_last_step in Hstep as [_ Hmid'].
    specialize (IH Hmid'). rewrite append_cons, star_greedy_cons.
    cbn [in_class].
    assert (Hc : (if Ascii.eqb newline c then R (mid +:+ fence +:+ r)
                  else None) = None
                 ∨ (if Ascii.eqb newline c then R (mid +:+ fence +:+ r)
                    else None) = Some v).
    { destruct (Ascii.eqb newline c); [right; now apply R_matches | now left]. }
    destruct (Js.is_space c); [|exact Hc].
    destruct IH as [-> | ->]; simpl; [exact Hc | now right].
Qed.

(** The greedy star of [\s] before a line feed: however much white space
    it gives back, what follows matches with the same answer. *)
Lemma star_greedy_space_newline (ws mid : string) :
  Js.every Js.is_space ws = true →
  Js.indexOf (mid +:+ fence) fence = Some (String.length mid) →
  star_greedy Space (ws +:+ String newline (mid +:+ fence +:+ r))
    after_newline = Some v.
Proof.
  intros Hws Hmid. induction ws as [|c ws IH].
  - rewrite append_nil_l, star_greedy_cons.
    change (in_class Space newline) with true. cbv iota.
    rewrite Ascii.eqb_refl, (R_matches _ Hmid).
    destruct (star_greedy_space_mid mid Hmid) as [-> | ->]; reflexivity.
  - simpl in Hws. apply andb_true_iff in Hws as [Hc Hws].
    rewrite append_cons, star_greedy_cons. cbn [in_class].
    rewrite Hc, (IH Hws). reflexivity.
Qed.

End SpaceThenNewline.

(** The same facts, about patterns. *)

Implicit Types (rest : regex) (cap : option string).
Implicit Types (Kc : string → option string → option A).

Lemma exec_lit_append p s rest cap Kc :
  exec (Lit p >> rest) (p +:+ s) cap Kc = exec rest s cap Kc.
Proof. cbn [exec]. now rewrite strip_prefix_append. Qed.

Lemma exec_lit_fails p s rest cap Kc :
  Js.strip_prefix p s = None → exec (Lit p >> rest) s cap Kc = None.
Proof. intros H. cbn [exec]. now rewrite H. Qed.

Lemma exec_space_newline ws mid r rest cap Kc (v : A) :
  Js.every Js.is_space ws = true →
  Js.indexOf (mid +:+ fence) fence = Some (String.length mid) →
  (∀ u, Js.indexOf (u +:+ fence) fence = Some (String.length u) →
        exec rest (u +:+ fence +:+ r) cap Kc = Some v) →
  exec (Star Space >> Cls (Char newline) >> rest)
    (ws +:+ String newline (mid +:+ fence +:+ r)) cap Kc = Some v.
Proof.
  intros Hws Hmid Hrest. cbn [exec].
  exact (star_greedy_space_newline
           (fun s' => exec rest s' cap Kc) r v Hrest ws mid Hws Hmid).
Qed.

Lemma exec_lazy_until p u r rest cap Kc (v : A) :
  Js.indexOf (u +:+ p) p = Some (String.length u) →
  exec rest r cap Kc = Some v →
  exec (StarLazy AnyChar >> Lit p >> rest) (u +:+ p +:+ r) cap Kc = Some v.
Proof.
  intros Hu Hrest. cbn [exec].
  exact (star_lazy_until p u r (fun _ s'' => exec rest s'' cap Kc) v Hu Hrest).
Qed.

Lemma exec_word_newline (tag r : string) rest cap Kc :
  Js.every Js.is_word tag = true →
  exec (Star Word >> Cls (Char newline) >> rest)
    (tag +:+ String newline r) cap Kc
  = exec rest r cap Kc.
Proof.
  intros Htag. cbn [exec].
  exact (star_greedy_word_newline tag r (fun s' => exec rest s' cap Kc) Htag).
Qed.

Lemma star_greedy_answer (k : cclass) s K (a : A) :
  star_greedy k s K = Some a → ∃ s', K s' = Some a.
Proof.
  induction s as [|c s IH]; [intros H; now exists ""|].
  rewrite star_greedy_cons.
  destruct (in_class k c); [|intros H; now exists (String c s)].
  destruct (star_greedy k s K) as [b|]; simpl;
    [|intros H; now exists (String c s)].
  intros [= <-]. now apply IH.
Qed.

Lemma star_lazy_answer (k : cclass) s K (a : A) :
  star_lazy k s K = Some a → ∃ s', K s' = Some a.
Proof.
  induction s as [|c s IH]; rewrite star_lazy_unfold.
  - destruct (K "") eqn:E; [intros [= <-]; now exists "" | discriminate].
  - destruct (K (String c s)) eqn:E;
      [intros [= <-]; now exists (String c s)|].
    destruct (in_class k c); [exact IH | discriminate].
Qed.

(** An answer comes from the continuation, which is given capture 1 as
    the pattern left it: set, when the pattern has the group. *)
Lemma exec_answer (re : regex) s cap Kc (a : A) :
  exec re s cap Kc = Some a →
  ∃ s' cap', Kc s' cap' = Some a
             ∧ if sets_group re then cap' ≠ None else cap' = cap.
Proof.
  revert s cap Kc; induction re as [p|k|k|k|r1 IH1 r2 IH2|r1 IH1];
    intros s cap Kc; cbn [exec sets_group].
  - destruct (Js.strip_prefix p s) as [s'|]; [|discriminate].
    intros H. now exists s', cap.
  - destruct s as [|c s]; [discriminate|].
    destruct (in_class k c); [|discriminate]. intros H. now exists s, cap.
  - intros H. apply star_greedy_answer in H as [s' H]. now exists s', cap.
  - intros H. apply star_lazy_answer in H as [s' H]. now exists s', cap.
  - intros H. apply IH1 in H as (s1 & c1 & H & H1).
    apply IH2 in H as (s2 & c2 & H & H2). exists s2, c2. split; [exact H|].
    destruct (sets_group r2); [now rewrite orb_true_r|].
    rewrite orb_false_r. subst c2. exact H1.
  - intros H. apply IH1 in H as (s1 & c1 & H & _).
    eexists _, _. split; [exact H | discriminate].
Qed.

End MatcherFacts.

(** ** The extractor *)

Section ExtractorFacts.

Implicit Types (s pre ws mid tag body post rest : string).

Lemma take_length_append (a x : string) :
  Js.take (String.length a) (a +:+ x) = a.
Proof.
  induction a as [|c a IH]; [now destruct x|].
  rewrite append_cons. simpl. now rewrite IH.
Qed.

Lemma take_difference (a x : string) :
  Js.take (String.length (a +:+ x) - String.length x) (a +:+ x) = a.
Proof.
  rewrite length_append.
  replace (String.length a + String.length x - String.length x)
    with (String.length a) by lia.
  apply take_length_append.
Qed.

(** The group of a lazy star that runs up to a literal captures what lies
    before the first occurrence of the literal. *)
Lemma exec_group_until (A : Type) p u r cap
    (Kc : string → option string → option A) (v : A) :
  Js.indexOf (u +:+ p) p = Some (String.length u) →
  Kc r (Some u) = Some v →
  exec (Group (StarLazy AnyChar) >> Lit p) (u +:+ p +:+ r) cap Kc = Some v.
Proof.
  intros Hu HK. cbn [exec].
  apply (star_lazy_until p u r
           (fun s' s'' =>
              Kc s'' (Some (Js.take
                              (String.length (u +:+ p +:+ r)
                               - String.length s') (u +:+ p +:+ r))))
           v Hu).
  now rewrite take_difference.
Qed.

Lemma LF_append s : LF +:+ s = String newline s.
Proof. reflexivity. Qed.

(** The pattern matches at a heading line that is followed by a fenced
    block, and captures the inside of the first such block. *)
Lemma match_at_heading ws mid tag body post :
  Js.every Js.is_space ws = true →
  Js.indexOf (mid +:+ fence) fence = Some (String.length mid) →
  Js.every Js.is_word tag = true →
  Js.indexOf (body +:+ fence) fence = Some (String.length body) →
  ∃ n, match_at instruction_re
         (heading +:+ ws +:+ LF +:+ mid +:+ fence +:+ tag +:+ LF +:+ body
          +:+ fence +:+ post)
       = Some {| matched_length := n; group1 := Some body |}.
Proof.
  intros Hws Hmid Htag Hbody. eexists.
  unfold match_at, instruction_re.
  change (Lit "## The Instruction") with (Lit heading).
  change (Lit "```") with (Lit fence).
  rewrite exec_lit_append, !LF_append.
  apply exec_space_newline; [exact Hws | exact Hmid |].
  intros u Hu. apply exec_lazy_until; [exact Hu|].
  rewrite exec_word_newline by exact Htag.
  apply exec_group_until; [exact Hbody|].
  reflexivity.
Qed.

Lemma search_unfold (r : regex) s :
  search r s =
  match match_at r s with
  | Some m => Some m
  | None =>
      match s with
      | String _ s' => search r s'
      | EmptyString => None
      end
  end.
Proof. destruct s; reflexivity. Qed.

(** Every match of the instruction pattern has its capture. *)
Lemma instruction_re_captures s (m : match_result) :
  search instruction_re s = Some m → ∃ g, group1 m = Some g.
Proof.
  assert (Hat : ∀ t, match_at instruction_re t = Some m →
                     ∃ g, group1 m = Some g).
  { intros t H. unfold match_at in H.
    apply exec_answer in H as (s' & cap' & [= <-] & Hcap).
    change (sets_group instruction_re) with true in Hcap. cbv iota in Hcap.
    simpl. destruct cap'; [now eexists | congruence]. }
  induction s as [|c s IH]; rewrite search_unfold;
    destruct (match_at instruction_re _) eqn:E;
    try discriminate; try (intros [= <-]; now apply (Hat _ E)).
  exact IH.
Qed.

Lemma match_at_instruction_fails s :
  Js.strip_prefix heading s = None → match_at instruction_re s = None.
Proof. intros H. unfold match_at, instruction_re. now apply exec_lit_fails. Qed.

Lemma match_at_heading_fails s :
  Js.strip_prefix heading s = None → match_at heading_re s = None.
Proof.
  intros H. unfold match_at, heading_re. cbn [exec].
  unfold heading in H. now rewrite H.
Qed.

Lemma match_at_heading_re rest :
  match_at heading_re (heading +:+ rest)
  = Some {| matched_length := String.length heading; group1 := None |}.
Proof.
  unfold match_at, heading_re. cbn [exec].
  change "## The Instruction" with heading at 1.
  rewrite strip_prefix_append, length_append. do 2 f_equal. lia.
Qed.

(** Before the first heading there is nothing for the pattern to match. *)
Lemma heading_not_before pre rest (c : ascii) :
  Js.indexOf (String c pre +:+ heading) heading
  = Some (String.length (String c pre)) →
  Js.strip_prefix heading (String c pre +:+ heading +:+ rest) = None
  ∧ Js.indexOf (pre +:+ heading) heading = Some (String.length pre).
Proof.
  intros H. apply indexOf_last_step in H as [Hc Hpre]. split; [|exact Hpre].
  rewrite <- append_assoc. apply strip_prefix_None_append; [exact Hc|].
  rewrite length_append. lia.
Qed.

Lemma search_skips_to_heading pre rest :
  Js.indexOf (pre +:+ heading) heading = Some (String.length pre) →
  search instruction_re (pre +:+ heading +:+ rest)
  = search instruction_re (heading +:+ rest).
Proof.
  induction pre as [|c pre IH]; intros Hpre; [reflexivity|].
  apply (heading_not_before _ rest) in Hpre as [Hc Hpre].
  rewrite search_unfold, (match_at_instruction_fails _ Hc), append_cons.
  now apply IH.
Qed.

Lemma search_without_heading s :
  Js.indexOf s heading = None → search instruction_re s = None.
Proof.
  induction s as [|c s IH]; intros H; rewrite search_unfold;
    rewrite (match_at_instruction_fails _ (indexOf_None_head _ _ H));
    [reflexivity|].
  apply IH. now apply indexOf_None_tail in H.
Qed.

Lemma split_go_cons (r : regex) (c : ascii) s (fresh : bool) :
  split_go r (String c s) 0 fresh =
  match match_at r (String c s) with
  | Some m =>
      match matched_length m with
      | S n => let '(p, ps) := split_go r s n true in (EmptyString, p :: ps)
      | O =>
          let '(p, ps) := split_go r s 0 false in
          if fresh then (String c p, ps) else (EmptyString, String c p :: ps)
      end
  | None => let '(p, ps) := split_go r s 0 false in (String c p, ps)
  end.
Proof. reflexivity. Qed.

(** [split] on a text without the heading returns the text. *)
Lemma split_go_without_heading s (fresh : bool) :
  Js.indexOf s heading = None → split_go heading_re s 0 fresh = (s, []).
Proof.
  revert fresh; induction s as [|c s IH]; intros fresh H; [reflexivity|].
  rewrite split_go_cons.
  rewrite (match_at_heading_fails _ (indexOf_None_head _ _ H)).
  rewrite IH; [reflexivity|]. now apply indexOf_None_tail in H.
Qed.

Lemma split_go_skip (r : regex) (x rest : string) :
  split_go r (x +:+ rest) (String.length x) true = split_go r rest 0 true.
Proof.
  induction x as [|c x IH]; [reflexivity|].
  rewrite append_cons. exact IH.
Qed.

(** [split] cuts at the first heading. *)
Lemma split_go_first_heading pre rest (fresh : bool) :
  Js.indexOf (pre +:+ heading) heading = Some (String.length pre) →
  split_go heading_re (pre +:+ heading +:+ rest) 0 fresh
  = (pre, let '(p, ps) := split_go heading_re rest 0 true in p :: ps).
Proof.
  revert fresh; induction pre as [|c pre IH]; intros fresh Hpre.
  - rewrite append_nil_l.
    pose proof (match_at_heading_re rest) as Hm.
    pose proof (split_go_skip heading_re "# The Instruction" rest) as Hskip.
    unfold heading in Hm |- *.
    rewrite append_cons in Hm |- *.
    rewrite split_go_cons, Hm.
    cbv beta iota delta [matched_length String.length].
    cbv beta iota delta [String.length] in Hskip.
    rewrite Hskip. now destruct (split_go heading_re rest 0 true).
  - apply (heading_not_before _ rest) in Hpre as [Hc Hpre].
    rewrite append_cons in Hc |- *. rewrite split_go_cons.
    rewrite (match_at_heading_fails _ Hc), (IH false Hpre). reflexivity.
Qed.

Lemma split_nonempty (r : regex) (c : ascii) s :
  split r (String c s)
  = let '(p, ps) := split_go r (String c s) 0 true in p :: ps.
Proof. reflexivity. Qed.

Lemma split_first_heading pre rest :
  Js.indexOf (pre +:+ heading) heading = Some (String.length pre) →
  Js.indexOf rest heading = None →
  split heading_re (pre +:+ heading +:+ rest) = [pre; rest].
Proof.
  intros Hpre Hrest.
  assert (∃ c s, pre +:+ heading +:+ rest = String c s) as (c & s & E).
  { destruct pre; [now eexists _, _ | now eexists _, _]. }
  rewrite E, split_nonempty, <- E, (split_go_first_heading _ _ _ Hpre).
  now rewrite (split_go_without_heading _ _ Hrest).
Qed.

Lemma split_without_heading s :
  Js.indexOf s heading = None → split heading_re s = [s].
Proof.
  intros H. destruct s as [|c s]; [reflexivity|].
  now rewrite split_nonempty, (split_go_without_heading _ _ H).
Qed.

(** C3, as the code has it: take a document whose first heading
    "## The Instruction" is followed by white space up to a line feed and,
    after any text [mid] free of fences, by a block that opens with three
    backticks, a tag of word characters and a line feed, and closes at the
    next three backticks.  Then the extractor returns the inside of that
    block, trimmed, whatever comes before the heading, fenced blocks
    included. *)
Theorem extract_first_fenced_block pre ws mid tag body post :
  Js.indexOf (pre +:+ heading) heading = Some (String.length pre) →
  Js.every Js.is_space ws = true →
  Js.indexOf (mid +:+ fence) fence = Some (String.length mid) →
  Js.every Js.is_word tag = true →
  Js.indexOf (body +:+ fence) fence = Some (String.length body) →
  extractInstruction
    (pre +:+ heading +:+ ws +:+ LF +:+ mid +:+ fence +:+ tag +:+ LF +:+ body
     +:+ fence +:+ post)
  = Some (Js.trim body).
Proof.
  intros Hpre Hws Hmid Htag Hbody. unfold extractInstruction.
  rewrite (search_skips_to_heading _ _ Hpre), search_unfold.
  destruct (match_at_heading ws mid tag body post Hws Hmid Htag Hbody)
    as [n ->].
  reflexivity.
Qed.

(** C4, as the code has it: on a document that the fenced-block pattern
    does not match, the extractor returns nothing when the heading
    "## The Instruction" does not occur, and when the heading occurs once
    it returns what follows the heading, trimmed - the empty string when
    nothing or only white space follows. *)
Theorem extract_fallback (markdown : string) :
  search instruction_re markdown = None →
  (Js.indexOf markdown heading = None → extractInstruction markdown = None)
  ∧ (∀ pre rest,
       markdown = pre +:+ heading +:+ rest →
       Js.indexOf (pre +:+ heading) heading = Some (String.length pre) →
       Js.indexOf rest heading = None →
       extractInstruction markdown = Some (Js.trim rest))
  ∧ (∀ pre rest,
       markdown = pre +:+ heading +:+ rest →
       Js.indexOf (pre +:+ heading) heading = Some (String.length pre) →
       Js.indexOf rest heading = None →
       Js.trim rest = "" →
       extractInstruction markdown = Some "").
Proof.
  intros Hno.
  assert (Hone : ∀ pre rest,
    markdown = pre +:+ heading +:+ rest →
    Js.indexOf (pre +:+ heading) heading = Some (String.length pre) →
    Js.indexOf rest heading = None →
    extractInstruction markdown = Some (Js.trim rest)).
  { intros pre rest E Hpre Hrest. unfold extractInstruction.
    rewrite Hno. rewrite E, (split_first_heading _ _ Hpre Hrest).
    reflexivity. }
  split; [|split].
  - intros Habsent. unfold extractInstruction.
    now rewrite Hno, (split_without_heading _ Habsent).
  - exact Hone.
  - intros pre rest E Hpre Hrest Hblank.
    rewrite <- Hblank. exact (Hone pre rest E Hpre Hrest).
Qed.

End ExtractorFacts.

(** * Instances

    The properties above at sample registry contents, and the inputs at
    which the code departs from a reading of its specification. *)

(** ** Search *)

Lemma search_conjunction_law_witness :
  handleSearchRegistry (Sample.indexed Sample.index) Sample.production
  = Ok (search_response Sample.index [Sample.guard])
  ∧ Js.includes
      (result_text (search_response Sample.index [Sample.guard]))
      (search_entry_block Sample.guard) = true.
Proof.
  pose proof (search_conjunction_law (Sample.indexed Sample.index)
                Sample.index Sample.production eq_refl)
    as (_ & _ & Hhandler & Hlisted).
  split; [exact Hhandler|].
  apply (Hlisted Sample.guard). left. reflexivity.
Defined.

(** An empty category is supplied and filters nothing: entries of every
    category are listed, none of which has the empty category. *)
Lemma empty_category_is_no_filter :
  search_results Sample.index Sample.empty_category
  = [Sample.guard; Sample.triage; Sample.draft]
  ∧ handleSearchRegistry (Sample.indexed Sample.index) Sample.empty_category
    = Ok (search_response Sample.index
            [Sample.guard; Sample.triage; Sample.draft])
  ∧ Args.category Sample.empty_category = Some ""
  ∧ category_match "" Sample.guard = false
  ∧ Entry.category Sample.guard = "skills".
Proof. repeat split. Qed.

Lemma min_quality_threshold_witness :
  In Sample.guard
    (search_results Sample.index (with_min_quality (Some 80%Z) Args.empty))
  ∧ Entry.quality_score Sample.guard = Some 80%Z
  ∧ handleSearchRegistry (Sample.indexed Sample.index)
      (with_min_quality (Some 80%Z) Args.empty)
    = Ok (search_response Sample.index [Sample.guard; Sample.triage]).
Proof.
  pose proof (min_quality_threshold (Sample.indexed Sample.index)
                Sample.index Args.empty Sample.guard eq_refl)
    as (_ & _ & _ & _ & Hlisted & Hhandler & _).
  split; [|split; [reflexivity | exact Hhandler]].
  apply Hlisted; [reflexivity | left; reflexivity | reflexivity].
Defined.

(** The entry without a score is in the index and is not listed. *)
Example unscored_entry_is_left_out :
  Entry.quality_score Sample.draft = None
  ∧ In Sample.draft (array_or_empty (entries Sample.index))
  ∧ search_results Sample.index (with_min_quality (Some 80%Z) Args.empty)
    = [Sample.guard; Sample.triage].
Proof. split; [reflexivity|]. split; [simpl; tauto | reflexivity]. Qed.

Lemma keyword_filter_ignores_case_witness :
  In Sample.guard
    (search_results Sample.index (with_q (Some "SAFETY") Args.empty))
  ∧ handleSearchRegistry (Sample.indexed Sample.index)
      (with_q (Some "SAFETY") Args.empty)
    = Ok (search_response Sample.index [Sample.guard]).
Proof.
  pose proof (keyword_filter_ignores_case (Sample.indexed Sample.index)
                Sample.index Args.empty "SAFETY" Sample.guard eq_refl)
    as (_ & Hlisted & Hhandler & _).
  split; [|exact Hhandler].
  apply Hlisted; [left; reflexivity | left; reflexivity | reflexivity].
Defined.

(** With min_quality 0 an entry with a negative score is listed. *)
Example zero_threshold_is_no_filter :
  let below := Sample.entry "below" "skills" None (Some (-5)%Z) None in
  let index := {| count := 1; categories := ["skills"];
                  entries := Some [below] |} in
  search_results index (with_min_quality (Some 0%Z) Args.empty) = [below]
  ∧ quality_match 0 below = false.
Proof. repeat split. Qed.

(** ** The dispatcher *)

Lemma index_failure_surfaces_witness :
  ∃ r : ToolResult,
    CallTool (Sample.failing 503)
      {| name := "list_categories"; arguments := None |} = Ok r
    ∧ isError r = Some true
    ∧ result_text r = "Error: Registry unavailable: 503"
    ∧ Js.includes (result_text r) "503" = true.
Proof.
  exact (proj2 (proj2 (proj2
           (index_failure_surfaces (Sample.failing 503)
              (Sample.respond 503 "" Sample.index) None "list_categories"
              eq_refl eq_refl (or_intror (or_introl eq_refl)))))).
Defined.

Lemma extraction_miss_returns_document_witness :
  ∃ r : ToolResult,
    handleGetInstruction (Sample.serving Sample.no_heading_doc)
      (Sample.instruction_of "output-guard") = Ok r
    ∧ CallTool (Sample.serving Sample.no_heading_doc)
        {| name := "get_instruction";
           arguments := Some (Sample.instruction_of "output-guard") |} = Ok r
    ∧ isError r = None
    ∧ result_text r =
      ("Could not extract instruction from " +:+ "output-guard"
       +:+ ". Returning full file instead:" +:+ LF +:+ LF)
      +:+ Sample.no_heading_doc
    ∧ Js.includes (result_text r) Sample.no_heading_doc = true.
Proof.
  exact (extraction_miss_returns_document
           (Sample.serving Sample.no_heading_doc) "output-guard"
           (Sample.instruction_of "output-guard") Sample.no_heading_doc
           eq_refl eq_refl eq_refl eq_refl).
Defined.

(** A rejected [fetch] is reported like any other failure. *)
Example offline_is_reported :
  CallTool Sample.offline {| name := "get_featured"; arguments := None |}
  = Ok (error_result "Error: fetch failed").
Proof. reflexivity. Qed.

(** ** Category counts *)



(** A category declared twice is printed twice, with the same count. *)
Example repeated_category_counts_twice :
  reported_total Sample.repeated = 2
  ∧ length (array_or_empty (entries Sample.repeated)) = 1.
Proof. split; vm_compute; reflexivity. Qed.

(** ** The extractor *)

Lemma extract_first_fenced_block_witness :
  extractInstruction Sample.fenced_doc = Some "do X".
Proof.
  exact (extract_first_fenced_block
           (Sample.lines ["# Output guard"; "```"; "before"; "```"; ""])
           "" LF "text" ("do X" +:+ LF) (LF +:+ "notes")
           eq_refl eq_refl eq_refl eq_refl eq_refl).
Defined.

(** A fence tagged [c++] is not recognised: the fall-back returns the
    block with its fences. *)
Lemma tagged_fence_is_not_extracted :
  extractInstruction Sample.cpp_doc
  = Some (Sample.lines ["```c++"; "do X"; "```"])
  ∧ extractInstruction Sample.cpp_doc ≠ Some "do X".
Proof. split; [reflexivity | discriminate]. Qed.

(** Nor is a block whose lines end in CR LF. *)
Example crlf_fence_is_not_extracted :
  extractInstruction Sample.crlf_doc
  = Some (Js.join (String "013" LF) ["```"; "do X"; "```"]).
Proof. reflexivity. Qed.

Lemma extract_fallback_witness :
  extractInstruction Sample.plain_doc = Some "do X".
Proof.
  exact (proj1 (proj2 (extract_fallback Sample.plain_doc eq_refl))
           ("# Output guard" +:+ LF) (LF +:+ "  do X  " +:+ LF)
           eq_refl eq_refl eq_refl).
Defined.

(** The heading with nothing after it: the extractor returns the empty
    string, which is not [null]. *)
Lemma bare_heading_yields_empty_string :
  search instruction_re heading = None
  ∧ extractInstruction heading = Some ""
  ∧ extractInstruction heading ≠ None.
Proof. repeat split. discriminate. Qed.

(** When the heading is repeated the fall-back returns what lies between
    the first two headings. *)
Example repeated_heading_returns_first_piece :
  search instruction_re Sample.twice_doc = None
  ∧ extractInstruction Sample.twice_doc = Some "foo".
Proof. split; reflexivity. Qed.

(** What fetch-one does with an empty extraction is what it does with
    none. *)
Example empty_extraction_returns_document :
  handleGetInstruction (Sample.serving heading) (Sample.instruction_of "x")
  = Ok (text_result
          ("Could not extract instruction from x. Returning full file instead:"
           +:+ LF +:+ LF +:+ heading)).
Proof. reflexivity. Qed.

(** * Further properties *)

(** ** The registry client and the dispatcher *)

Section ClientFacts.

Variable fetch : string → result Response.t.

Lemma fetchFile_url (slug : option string) :
  fetchFile fetch slug =
  await res <- fetch (document_url slug) in
  if negb (Response.ok res)
  then Throw {| message := "File not found: " +:+ show_string slug +:+ " ("
                           +:+ pretty (Response.status res) +:+ ")" |}
  else Ok (Response.text res).
Proof. reflexivity. Qed.

Lemma result_text_error (s : string) : result_text (error_result s) = s.
Proof. reflexivity. Qed.

(** A handler that returns, returns a result without the error flag. *)
Lemma handler_success_unflagged (name : string) (args : option Args.t)
    (r : ToolResult) :
  In name tool_names →
  tool_switch fetch name args = Ok r → isError r = None.
Proof.
  intros Hname H. unfold tool_switch in H.
  assert (Hs : ∀ index l, isError (search_response index l) = None).
  { intros index l. unfold search_response.
    now destruct (length l =? 0)%nat. }
  assert (Hi : ∀ slug only md,
             isError (instruction_response slug only md) = None).
  { intros slug only md. unfold instruction_response.
    destruct (truthy_bool only); [|reflexivity].
    now destruct (truthy_instruction (extractInstruction md)). }
  unfold handleSearchRegistry, handleGetInstruction, handleListCategories,
    handleGetFeatured, bind in H.
  destruct (String.eqb_spec name "search_registry") as [_|N1].
  { destruct (fetchIndex fetch); [injection H as <-; apply Hs | discriminate]. }
  destruct (String.eqb_spec name "get_instruction") as [_|N2].
  { destruct (fetchFile fetch _); [injection H as <-; apply Hi | discriminate]. }
  destruct (String.eqb_spec name "list_categories") as [_|N3].
  { destruct (fetchIndex fetch); [now injection H as <- | discriminate]. }
  destruct (String.eqb_spec name "get_featured") as [_|N4].
  { destruct (fetchIndex fetch); [now injection H as <- | discriminate]. }
  exfalso. unfold tool_names in Hname. simpl in Hname.
  intuition congruence.
Qed.

(** X1: the dispatcher passes on, unchanged, whatever its [switch]
    returns, and the error flag of its answer is set exactly when the tool
    name is unknown or the handler threw; the flag is never set to
    false. *)
Theorem error_flag_iff_failure (request : ToolRequest) :
  ∃ r : ToolResult,
    CallTool fetch request = Ok r
    ∧ (∀ r0, tool_switch fetch (name request) (arguments request) = Ok r0 →
             r = r0)
    ∧ (isError r = Some true
       ↔ ¬ In (name request) tool_names
         ∨ ∃ err, tool_switch fetch (name request) (arguments request)
                  = Throw err)
    ∧ (isError r = None ∨ isError r = Some true).
Proof.
  unfold CallTool, try_catch.
  destruct (tool_switch fetch (name request) (arguments request))
    as [r|e] eqn:E.
  - exists r. split; [reflexivity|]. split; [now intros r0 [= <-]|].
    destruct (in_dec String.string_dec (name request) tool_names)
      as [Hin|Hout].
    + pose proof (handler_success_unflagged _ _ _ Hin E) as Hr.
      rewrite Hr. split; [|now left]. split; [discriminate|].
      intros [Hout|[err Herr]]; [contradiction | discriminate].
    + rewrite (tool_switch_unknown fetch _ _ Hout) in E.
      injection E as <-. split; [|now right].
      split; [now left | reflexivity].
  - eexists. split; [reflexivity|]. split; [discriminate|].
    split; [|now right]. split; [|reflexivity].
    intros _. right. now exists e.
Qed.

(** X2: when the registry answers a document request with a non-success
    status, fetch-one throws "File not found: slug (status)" whatever
    instruction_only says, and the dispatcher reports it with the error
    flag, in a text that names the slug and the status. *)
Theorem document_failure_surfaces (res : Response.t) (a : Args.t) :
  fetch (document_url (Args.slug a)) = Ok res →
  Response.ok res = false →
  handleGetInstruction fetch a
  = Throw {| message := "File not found: " +:+ show_string (Args.slug a)
                        +:+ " (" +:+ pretty (Response.status res) +:+ ")" |}
  ∧ ∃ r : ToolResult,
      CallTool fetch {| name := "get_instruction"; arguments := Some a |}
      = Ok r
      ∧ isError r = Some true
      ∧ result_text r
        = "Error: File not found: " +:+ show_string (Args.slug a)
          +:+ " (" +:+ pretty (Response.status res) +:+ ")"
      ∧ Js.includes (result_text r) (show_string (Args.slug a)) = true
      ∧ Js.includes (result_text r) (pretty (Response.status res)) = true.
Proof.
  intros Hres Hok.
  assert (Hget : handleGetInstruction fetch a
    = Throw {| message := "File not found: " +:+ show_string (Args.slug a)
                          +:+ " (" +:+ pretty (Response.status res)
                          +:+ ")" |}).
  { unfold handleGetInstruction. rewrite fetchFile_url, Hres. simpl.
    now rewrite Hok. }
  split; [exact Hget|]. eexists. split.
  { unfold CallTool, tool_switch. simpl. rewrite Hget. reflexivity. }
  split; [reflexivity|]. split; [reflexivity|]. split.
  - rewrite result_text_error. do 2 apply includes_append_r.
    apply includes_here.
  - rewrite result_text_error. do 4 apply includes_append_r.
    apply includes_here.
Qed.

(** X3: a rejected [fetch] and an index body that does not parse are
    reported with the message of the failure itself, by each tool that
    reads the index; a rejected document request likewise by
    get_instruction. *)
Theorem client_failure_surfaces (err : Error) (args : option Args.t)
    (tool : string) :
  In tool ["search_registry"; "list_categories"; "get_featured"] →
  (fetch INDEX_URL = Throw err →
   CallTool fetch {| name := tool; arguments := args |}
   = Ok (error_result ("Error: " +:+ message err)))
  ∧ (∀ res, fetch INDEX_URL = Ok res → Response.ok res = true →
            Response.json res = Throw err →
            CallTool fetch {| name := tool; arguments := args |}
            = Ok (error_result ("Error: " +:+ message err)))
  ∧ (fetch (document_url (Args.slug (args_or_empty args))) = Throw err →
     CallTool fetch {| name := "get_instruction"; arguments := args |}
     = Ok (error_result ("Error: " +:+ message err))).
Proof.
  intros Htool.
  assert (Hidx : fetchIndex fetch = Throw err →
    CallTool fetch {| name := tool; arguments := args |}
    = Ok (error_result ("Error: " +:+ message err))).
  { intros H. unfold CallTool, tool_switch, handleSearchRegistry,
      handleListCategories, handleGetFeatured.
    destruct Htool as [<-|[<-|[<-|[]]]]; simpl; rewrite H; reflexivity. }
  split; [|split].
  - intros H. apply Hidx. unfold fetchIndex. now rewrite H.
  - intros res Hres Hok Hjson. apply Hidx. unfold fetchIndex.
    rewrite Hres. simpl. now rewrite Hok.
  - intros H. unfold CallTool, tool_switch, handleGetInstruction. simpl.
    rewrite fetchFile_url, H. reflexivity.
Qed.

End ClientFacts.

(** X4: a tool call reads the registry at one address only: the index
    address for the three index tools, the address of the slug's document
    for get_instruction.  Two registries that agree on the address that a
    request reads are answered alike. *)
Theorem call_reads_one_address (fetch1 fetch2 : string → result Response.t)
    (request : ToolRequest) :
  (if String.eqb (name request) "get_instruction"
   then fetch1 (document_url (Args.slug (args_or_empty (arguments request))))
        = fetch2 (document_url (Args.slug (args_or_empty (arguments request))))
   else fetch1 INDEX_URL = fetch2 INDEX_URL) →
  CallTool fetch1 request = CallTool fetch2 request.
Proof.
  intros H. unfold CallTool, tool_switch.
  destruct (String.eqb_spec (name request) "search_registry") as [E|_].
  { rewrite E in H. simpl in H. unfold handleSearchRegistry, fetchIndex.
    now rewrite H. }
  destruct (String.eqb (name request) "get_instruction").
  { unfold handleGetInstruction. now rewrite !fetchFile_url, H. }
  unfold handleListCategories, handleGetFeatured, fetchIndex. now rewrite H.
Qed.

(** ** Fetch-one *)

Section FetchOneFacts.

Variable fetch : string → result Response.t.

(** X5: unless instruction_only is true, fetch-one hands back the
    document exactly as the registry served it, through the dispatcher and
    without the error flag; the extractor has no say in it. *)
Theorem raw_document_is_verbatim (res : Response.t) (a : Args.t) :
  fetch (document_url (Args.slug a)) = Ok res →
  Response.ok res = true →
  Args.instruction_only a ≠ Some true →
  CallTool fetch {| name := "get_instruction"; arguments := Some a |}
  = Ok (text_result (Response.text res))
  ∧ result_text (text_result (Response.text res)) = Response.text res.
Proof.
  intros Hres Hok Honly. split; [|reflexivity].
  unfold CallTool, tool_switch, handleGetInstruction. simpl.
  rewrite fetchFile_url, Hres. simpl. rewrite Hok. simpl.
  unfold instruction_response.
  destruct (Args.instruction_only a) as [[]|]; [congruence | | ]; reflexivity.
Qed.

(** X6: when instruction_only is true and the extractor returns a text
    that is not empty, the answer carries no error flag and is made of a
    title naming the slug, the text between fences of the handler's own,
    and the address the document was read from. *)
Theorem extracted_instruction_is_wrapped (res : Response.t) (a : Args.t)
    (instruction : string) :
  fetch (document_url (Args.slug a)) = Ok res →
  Response.ok res = true →
  Args.instruction_only a = Some true →
  extractInstruction (Response.text res) = Some instruction →
  instruction ≠ "" →
  ∃ r : ToolResult,
    CallTool fetch {| name := "get_instruction"; arguments := Some a |} = Ok r
    ∧ isError r = None
    ∧ result_text r
      = "# Instruction: " +:+ show_string (Args.slug a) +:+ LF +:+ LF
        +:+ fence +:+ LF +:+ instruction +:+ LF +:+ fence +:+ LF +:+ LF
        +:+ "Fetched from: " +:+ document_url (Args.slug a)
    ∧ Js.includes (result_text r) instruction = true.
Proof.
  intros Hres Hok Honly Hext Hne.
  apply truthy_string_spec in Hne.
  eexists. split.
  { unfold CallTool, tool_switch, handleGetInstruction. simpl.
    rewrite fetchFile_url, Hres. simpl. rewrite Hok. simpl.
    unfold instruction_response. rewrite Honly. simpl.
    rewrite Hext. simpl. rewrite Hne. reflexivity. }
  split; [reflexivity|]. split; [reflexivity|].
  rewrite result_text_text_result.
  do 6 apply includes_append_r. apply includes_here.
Qed.

(** X7: a call without a slug is answered as the call for the slug
    "undefined": that is the document requested and the name the answer
    or the error message carries. *)
Theorem missing_slug_reads_undefined (a : Args.t) :
  Args.slug a = None →
  handleGetInstruction fetch a
  = handleGetInstruction fetch (with_slug (Some "undefined") a)
  ∧ document_url (Args.slug a) = BASE_URL +:+ "/registry/undefined.md"
  ∧ CallTool fetch {| name := "get_instruction"; arguments := Some a |}
    = CallTool fetch
        {| name := "get_instruction";
           arguments := Some (with_slug (Some "undefined") a) |}.
Proof.
  intros H.
  assert (Hget : handleGetInstruction fetch a
                 = handleGetInstruction fetch (with_slug (Some "undefined") a)).
  { unfold handleGetInstruction, fetchFile, with_slug. simpl.
    rewrite H. reflexivity. }
  split; [exact Hget|]. split; [now rewrite H|].
  unfold CallTool, tool_switch. simpl. now rewrite Hget.
Qed.

(** X8: the tools that the server advertises are the tools that it
    dispatches: a request is answered "Unknown tool" exactly when its name
    is not the name of an advertised tool. *)
Theorem advertised_tools_are_dispatched (request : ToolRequest) :
  map Tool.name ListTools = tool_names
  ∧ (CallTool fetch request
     = Ok (error_result ("Unknown tool: " +:+ name request))
     ↔ ¬ In (name request) (map Tool.name ListTools)).
Proof.
  split; [reflexivity|].
  change (map Tool.name ListTools) with tool_names.
  split.
  - intros H Hin. unfold CallTool, try_catch in H.
    destruct (tool_switch fetch (name request) (arguments request))
      as [r|e] eqn:E.
    + injection H as ->.
      apply (handler_success_unflagged fetch _ _ _ Hin) in E. discriminate.
    + injection H. intros. discriminate.
  - intros Hout. unfold CallTool.
    now rewrite (tool_switch_unknown fetch _ _ Hout).
Qed.

End FetchOneFacts.

(** ** Search and featured listing *)

Section MoreSearchFacts.

Lemma truthy_toLowerCase (q : string) :
  Js.truthy_string (Js.toLowerCase q) = Js.truthy_string q.
Proof. now destruct q. Qed.

Lemma keyword_match_shorter (t t' : string) (e : Entry.t) :
  Js.includes t t' = true →
  keyword_match t e = true → keyword_match t' e = true.
Proof.
  intros Ht. unfold keyword_match.
  rewrite !orb_true_iff, !existsb_exists.
  intros [[[H|(x & Hx & H)]|H]|H].
  - left; left; left. eapply includes_trans; eassumption.
  - left; left; right. exists x. split; [exact Hx|].
    eapply includes_trans; eassumption.
  - left; right. eapply includes_trans; eassumption.
  - right. eapply includes_trans; eassumption.
Qed.

Variable fetch : string → result Response.t.

(** X9: two queries that differ only in the case of their letters are
    answered alike: the same entries in the same order, the same text. *)
Theorem query_case_is_ignored (a : Args.t) (q q' : string) :
  Js.toLowerCase q = Js.toLowerCase q' →
  (∀ index, search_results index (with_q (Some q) a)
            = search_results index (with_q (Some q') a))
  ∧ handleSearchRegistry fetch (with_q (Some q) a)
    = handleSearchRegistry fetch (with_q (Some q') a).
Proof.
  intros Hq.
  assert (Hr : ∀ index, search_results index (with_q (Some q) a)
                        = search_results index (with_q (Some q') a)).
  { intros index. unfold search_results, with_q, if_truthy at 1 4. simpl.
    rewrite <- (truthy_toLowerCase q), <- (truthy_toLowerCase q'), Hq.
    reflexivity. }
  split; [exact Hr|].
  unfold handleSearchRegistry. destruct (fetchIndex fetch); simpl;
    [now rewrite Hr | reflexivity].
Qed.

(** X10: a query that occurs, case aside, inside another query finds at
    least what the longer query finds. *)
Theorem shorter_query_finds_more (index : IndexDocument) (a : Args.t)
    (q q' : string) (e : Entry.t) :
  Js.includes (Js.toLowerCase q) (Js.toLowerCase q') = true →
  In e (search_results index (with_q (Some q) a)) →
  In e (search_results index (with_q (Some q') a)).
Proof.
  intros Hq. rewrite !with_q_In. intros [Hin Hk]. split; [exact Hin|].
  now apply (keyword_match_shorter _ _ e Hq).
Qed.

(** X11: raising the quality threshold never adds an entry, provided the
    higher threshold is not 0, which switches the filter off. *)
Theorem higher_threshold_finds_less (index : IndexDocument) (a : Args.t)
    (m m' : Z) (e : Entry.t) :
  (m ≤ m')%Z → m' ≠ 0%Z →
  In e (search_results index (with_min_quality (Some m') a)) →
  In e (search_results index (with_min_quality (Some m) a)).
Proof.
  intros Hle Hm'. rewrite (with_min_quality_In _ _ _ _ Hm').
  intros [Hin Hq]. destruct (Z.eq_dec m 0%Z) as [->|Hm].
  - exact Hin.
  - apply (with_min_quality_In _ _ _ _ Hm). split; [exact Hin | lia].
Qed.

(** X12: a search within the results of a search: the order of the two
    searches does not matter, and repeating a search changes nothing. *)
Theorem searches_commute (index : IndexDocument) (a b : Args.t) :
  search_results (with_entries (search_results index a) index) b
  = search_results (with_entries (search_results index b) index) a
  ∧ search_results (with_entries (search_results index a) index) a
    = search_results index a.
Proof.
  rewrite !search_results_keeps. unfold with_entries; simpl.
  rewrite !filter_filter. split; apply filter_ext; intros e.
  - apply andb_comm.
  - apply andb_diag.
Qed.

(** X13: get_featured lists exactly the entries whose featured flag is
    true, in the order of the index: the entries that search_registry lists
    for featured_only alone.  Its answer carries no error flag; its text
    gives their number and then the block of each, in that order, and
    nothing else between the fixed first and last lines. *)
Theorem featured_is_featured_only_search (index : IndexDocument) :
  fetchIndex fetch = Ok index →
  search_results index featured_only_args
  = List.filter
      (fun e => match Entry.featured e with Some true => true | _ => false end)
      (array_or_empty (entries index))
  ∧ (∀ e, In e (search_results index featured_only_args)
          ↔ In e (array_or_empty (entries index))
            ∧ Entry.featured e = Some true)
  ∧ handleGetFeatured fetch
    = Ok (text_result
            ("Featured files ("
             +:+ pretty (length (search_results index featured_only_args))
             +:+ " total — quality score 90+):" +:+ LF +:+ LF
             +:+ Js.join (LF +:+ LF)
                   (map featured_block
                      (search_results index featured_only_args))
             +:+ LF +:+ LF
             +:+ "Use get_instruction with any slug to fetch the full file."))
  ∧ handleSearchRegistry fetch featured_only_args
    = Ok (search_response index (search_results index featured_only_args)).
Proof.
  intros Hidx.
  assert (Hs : search_results index featured_only_args
               = List.filter featured_match (array_or_empty (entries index)))
    by reflexivity.
  split; [|split; [|split]].
  - rewrite Hs. apply filter_ext. intros e. unfold featured_match.
    now destruct (Entry.featured e) as [[]|].
  - intros e. rewrite Hs, filter_In. unfold featured_match.
    now rewrite truthy_bool_spec.
  - unfold handleGetFeatured. rewrite Hidx. simpl. now rewrite Hs.
  - unfold handleSearchRegistry. now rewrite Hidx.
Qed.

End MoreSearchFacts.

(** ** More on category counts *)

Section MoreCategoryFacts.

Lemma entries_in_declared (cats : list string) (es : list Entry.t)
    (c : string) :
  In c cats →
  entries_in c (List.filter (declared cats) es) = entries_in c es.
Proof.
  intros Hc. unfold entries_in. rewrite filter_filter.
  apply filter_ext. intros e.
  destruct (String.eqb_spec (Entry.category e) c) as [E|_];
    [|apply andb_false_r].
  rewrite andb_true_r. apply declared_In. now rewrite E.
Qed.

Lemma reported_count_without_undeclared (cats : list string)
    (es : list Entry.t) (c : string) :
  In c cats →
  reported_count (count_categories cats es) c
  = reported_count (count_categories cats (List.filter (declared cats) es)) c.
Proof.
  intros Hc. destruct (String.eqb_spec c "__proto__") as [->|Hne].
  - now rewrite !reported_count_proto.
  - rewrite !reported_count_declared by assumption.
    now rewrite entries_in_declared.
Qed.

(** X14: whatever the index declares, what is printed for a declared
    category other than [__proto__] is the number of entries of exactly
    that category; for [__proto__] it is [[object Object]], whatever the
    entries.  Entries of categories that are not declared change nothing:
    the handler answers as it does for the index without them. *)
Theorem undeclared_entries_never_count (index : IndexDocument) :
  (∀ c, In c (categories index) → c ≠ "__proto__" →
        reported_count
          (count_categories (categories index)
             (array_or_empty (entries index))) c
        = Count (length (entries_in c (array_or_empty (entries index)))))
  ∧ category_block
      (count_categories (categories index) (array_or_empty (entries index)))
      "__proto__"
    = "**__proto__** ([object Object] files)" +:+ LF +:+ "  [object Object]"
  ∧ categories_response index
    = categories_response
        (with_entries
           (List.filter (declared (categories index))
              (array_or_empty (entries index))) index)
  ∧ (∀ fetch : string → result Response.t,
       fetchIndex fetch = Ok index →
       handleListCategories fetch
       = Ok (categories_response
               (with_entries
                  (List.filter (declared (categories index))
                     (array_or_empty (entries index))) index))).
Proof.
  assert (Hsame :
    categories_response index
    = categories_response
        (with_entries
           (List.filter (declared (categories index))
              (array_or_empty (entries index))) index)).
  { assert (Hmap :
      map (category_block
             (count_categories (categories index)
                (array_or_empty (entries index)))) (categories index)
      = map (category_block
               (count_categories (categories index)
                  (List.filter (declared (categories index))
                     (array_or_empty (entries index))))) (categories index)).
    { apply map_ext_in. intros c Hc. unfold category_block.
      now rewrite <- (reported_count_without_undeclared _ _ _ Hc). }
    unfold categories_response, with_entries; simpl. now rewrite Hmap. }
  split; [|split; [|split]].
  - intros c Hc Hne. now apply reported_count_declared.
  - unfold category_block. now rewrite reported_count_proto.
  - exact Hsame.
  - intros fetch Hidx. unfold handleListCategories. rewrite Hidx. simpl.
    now rewrite <- Hsame.
Qed.

End MoreCategoryFacts.

(** ** Category counts and category search *)

Section CountAndSearchFacts.

Variable fetch : string → result Response.t.

Lemma search_results_category (index : IndexDocument) (c : string) :
  c ≠ "" →
  search_results index (category_args c)
  = entries_in c (array_or_empty (entries index)).
Proof.
  intros Hc. apply truthy_string_spec in Hc.
  unfold search_results, category_args, if_truthy, entries_in. simpl.
  now rewrite Hc.
Qed.

(** X15: for a declared category other than the empty string and
    [__proto__], the count that list_categories prints in the category's
    line is the number of entries that search_registry lists for that
    category alone, and those are the entries of that category. *)
Theorem category_count_is_category_search (index : IndexDocument)
    (c : string) :
  fetchIndex fetch = Ok index →
  In c (categories index) →
  c ≠ "" →
  c ≠ "__proto__" →
  search_results index (category_args c)
  = entries_in c (array_or_empty (entries index))
  ∧ reported_count
      (count_categories (categories index) (array_or_empty (entries index))) c
    = Count (length (search_results index (category_args c)))
  ∧ category_block
      (count_categories (categories index) (array_or_empty (entries index))) c
    = "**" +:+ c +:+ "** ("
      +:+ pretty (length (search_results index (category_args c)))
      +:+ " file"
      +:+ (if (length (search_results index (category_args c)) =? 1)%nat
           then "" else "s")
      +:+ ")" +:+ LF +:+ "  " +:+ description c
  ∧ handleListCategories fetch = Ok (categories_response index)
  ∧ Js.includes (result_text (categories_response index))
      (category_block
         (count_categories (categories index)
            (array_or_empty (entries index))) c) = true
  ∧ handleSearchRegistry fetch (category_args c)
    = Ok (search_response index (search_results index (category_args c))).
Proof.
  intros Hidx Hin Hc Hproto.
  pose proof (search_results_category index c Hc) as Hs.
  pose proof (reported_count_declared (categories index)
                (array_or_empty (entries index)) c Hin Hproto) as Hn.
  rewrite <- Hs in Hn.
  split; [exact Hs|]. split; [exact Hn|]. split; [|split; [|split]].
  - unfold category_block. rewrite Hn. simpl.
    now destruct (length (search_results index (category_args c)))
      as [|[|n]].
  - unfold handleListCategories. now rewrite Hidx.
  - unfold categories_response. rewrite result_text_text_result.
    do 5 apply includes_append_r. apply includes_append_l.
    apply includes_join. apply in_map. exact Hin.
  - unfold handleSearchRegistry. now rewrite Hidx.
Qed.

End CountAndSearchFacts.

(** ** More on strings *)

Section MoreStringFacts.

Implicit Types (s p u r sub : string).

Lemma strip_prefix_Some_append p s r x :
  Js.strip_prefix p s = Some r → Js.strip_prefix p (s +:+ x) = Some (r +:+ x).
Proof.
  intros H. apply strip_prefix_Some in H as ->.
  now rewrite append_assoc, strip_prefix_append.
Qed.

Lemma indexOf_prefix sub r : Js.indexOf (sub +:+ r) sub = Some 0.
Proof. now rewrite indexOf_unfold, strip_prefix_append. Qed.

(** A text in which [sub] occurs splits at the first occurrence. *)
Lemma indexOf_first_split s sub (n : nat) :
  Js.indexOf s sub = Some n →
  ∃ pre rest, s = pre +:+ sub +:+ rest
              ∧ Js.indexOf (pre +:+ sub) sub = Some (String.length pre).
Proof.
  revert n; induction s as [|c s IH]; intros n; rewrite indexOf_unfold.
  - destruct (Js.strip_prefix sub "") as [r|] eqn:E; [|discriminate].
    intros _. apply strip_prefix_Some in E. exists "", r.
    rewrite !append_nil_l. split; [exact E|].
    pose proof (indexOf_prefix sub "") as H. now rewrite append_nil_r in H.
  - destruct (Js.strip_prefix sub (String c s)) as [r|] eqn:E.
    + intros _. apply strip_prefix_Some in E. exists "", r.
      rewrite !append_nil_l. split; [exact E|].
      pose proof (indexOf_prefix sub "") as H. now rewrite append_nil_r in H.
    + destruct (Js.indexOf s sub) as [k|] eqn:Ek; [|discriminate].
      intros _. destruct (IH k eq_refl) as (pre & rest & -> & Hpre).
      exists (String c pre), rest. rewrite !append_cons.
      split; [reflexivity|]. rewrite indexOf_unfold.
      destruct (Js.strip_prefix sub (String c (pre +:+ sub))) as [r|] eqn:E'.
      * apply (strip_prefix_Some_append _ _ _ rest) in E'.
        rewrite append_cons, append_assoc in E'. congruence.
      * rewrite Hpre. reflexivity.
Qed.

Lemma append_eq_nil (a b : string) : a +:+ b = "" → b = "".
Proof. destruct a; [now rewrite append_nil_l | now rewrite append_cons]. Qed.

Lemma trimStart_idem s : Js.trimStart (Js.trimStart s) = Js.trimStart s.
Proof.
  induction s as [|c s IH]; [reflexivity|]. simpl.
  destruct (Js.is_space c) eqn:E; [exact IH|]. simpl. now rewrite E.
Qed.

Lemma trimEnd_idem s : Js.trimEnd (Js.trimEnd s) = Js.trimEnd s.
Proof.
  induction s as [|c s IH]; [reflexivity|]. simpl.
  destruct (Js.trimEnd s) as [|d t] eqn:E.
  - destruct (Js.is_space c) eqn:Ec; [reflexivity|]. simpl. now rewrite Ec.
  - change (Js.trimEnd (String c (String d t)))
      with (match Js.trimEnd (String d t) with
            | EmptyString =>
                if Js.is_space c then EmptyString else String c EmptyString
            | x => String c x
            end).
    now rewrite IH.
Qed.

(** Trimming the end leaves a trimmed start as it is. *)
Lemma trimStart_trimEnd s :
  Js.trimStart s = s → Js.trimStart (Js.trimEnd s) = Js.trimEnd s.
Proof.
  destruct s as [|c s]; [reflexivity|]. simpl.
  destruct (Js.is_space c) eqn:E.
  - intros H. exfalso.
    assert (Hlen : ∀ t, String.length (Js.trimStart t) ≤ String.length t).
    { induction t as [|d t IHt]; [simpl; lia|]. simpl.
      destruct (Js.is_space d); simpl; lia. }
    specialize (Hlen s). rewrite H in Hlen. simpl in Hlen. lia.
  - intros _. destruct (Js.trimEnd s); simpl; now rewrite E.
Qed.

Lemma trim_idem s : Js.trim (Js.trim s) = Js.trim s.
Proof.
  unfold Js.trim.
  rewrite (trimStart_trimEnd _ (trimStart_idem s)). apply trimEnd_idem.
Qed.

Lemma trimStart_trim s : Js.trimStart (Js.trim s) = Js.trim s.
Proof. unfold Js.trim. apply trimStart_trimEnd, trimStart_idem. Qed.

Lemma trimEnd_trim s : Js.trimEnd (Js.trim s) = Js.trim s.
Proof. unfold Js.trim. apply trimEnd_idem. Qed.

Lemma includes_trimStart s : Js.includes s (Js.trimStart s) = true.
Proof.
  induction s as [|c s IH]; [reflexivity|]. simpl.
  destruct (Js.is_space c).
  - now apply includes_cons.
  - apply (includes_end "").
Qed.

Lemma trimEnd_split s : ∃ ws, s = Js.trimEnd s +:+ ws.
Proof.
  induction s as [|c s [ws IH]]; [now exists ""|]. simpl.
  destruct (Js.trimEnd s) as [|d t] eqn:E.
  - rewrite append_nil_l in IH. subst ws.
    destruct (Js.is_space c).
    + now exists (String c s).
    + now exists s.
  - exists ws. now rewrite append_cons, <- IH.
Qed.

(** What [trim] returns is a part of its argument. *)
Lemma includes_trim s : Js.includes s (Js.trim s) = true.
Proof.
  unfold Js.trim. eapply includes_trans; [apply includes_trimStart|].
  destruct (trimEnd_split (Js.trimStart s)) as [ws E].
  rewrite E at 1. apply includes_here.
Qed.

End MoreStringFacts.

(** ** More on the matcher and the extractor *)

Section MoreExtractorFacts.

Implicit Types (s pre mid rest : string).

(** The lazy star of [[\s\S]] stops at the first position at which its
    continuation succeeds. *)
Lemma star_lazy_first (A : Type) s (K : string → option A) (a : A) :
  star_lazy AnyChar s K = Some a →
  ∃ u r, s = u +:+ r ∧ K r = Some a
         ∧ ∀ u1 u2, u = u1 +:+ u2 → u2 ≠ "" → K (u2 +:+ r) = None.
Proof.
  induction s as [|c s IH]; rewrite star_lazy_unfold.
  - destruct (K "") eqn:E; [|discriminate]. intros [= <-].
    exists "", "". split; [reflexivity|]. split; [exact E|].
    intros u1 u2 Hu Hne. symmetry in Hu. apply append_eq_nil in Hu.
    contradiction.
  - destruct (K (String c s)) eqn:E.
    + intros [= <-]. exists "", (String c s).
      split; [reflexivity|]. split; [exact E|].
      intros u1 u2 Hu Hne. symmetry in Hu. apply append_eq_nil in Hu.
      contradiction.
    + cbn [in_class]. intros H. destruct (IH H) as (u & r & -> & HK & Hfirst).
      exists (String c u), r. rewrite append_cons.
      split; [reflexivity|]. split; [exact HK|].
      intros [|d u1] u2 Hu Hne.
      * rewrite append_nil_l in Hu. subst u2. now rewrite append_cons.
      * rewrite append_cons in Hu. injection Hu as _ Hu.
        now apply (Hfirst u1).
Qed.

Lemma exec_seq_answer (A : Type) (r1 r2 : regex) s (cap : option string)
    (Kc : string → option string → option A) (a : A) :
  exec (r1 >> r2) s cap Kc = Some a →
  ∃ s' cap', exec r2 s' cap' Kc = Some a.
Proof.
  intros H.
  change (exec r1 s cap (fun s' cap' => exec r2 s' cap' Kc) = Some a) in H.
  apply exec_answer in H as (s' & cap' & H & _). now exists s', cap'.
Qed.

(** The group that runs lazily up to the closing fence captures a text in
    which no fence occurs. *)
Lemma exec_group_capture s (cap : option string)
    (Kc : string → option string → option match_result) (m : match_result) :
  (∀ s' cap', ∃ m', Kc s' cap' = Some m' ∧ group1 m' = cap') →
  exec (Group (StarLazy AnyChar) >> Lit fence) s cap Kc = Some m →
  ∃ g, group1 m = Some g ∧ Js.includes g fence = false.
Proof.
  intros HK H. cbn [exec] in H.
  apply star_lazy_first in H as (u & r & -> & H & Hfirst).
  destruct (Js.strip_prefix fence r) as [r'|] eqn:Er; [|discriminate].
  rewrite take_difference in H.
  destruct (HK r' (Some u)) as (m' & Hm' & Hg).
  rewrite Hm' in H. injection H as <-.
  exists u. split; [exact Hg|].
  destruct (Js.includes u fence) eqn:Ein; [|reflexivity]. exfalso.
  apply includes_split in Ein as (a & b & ->).
  specialize (Hfirst a (fence +:+ b) eq_refl).
  rewrite append_assoc, strip_prefix_append in Hfirst.
  match type of Hfirst with
  | _ → Kc ?x ?y = None => destruct (HK x y) as (m2 & Hm2 & _)
  end.
  rewrite Hm2 in Hfirst. now discriminate Hfirst.
Qed.

Lemma match_at_instruction_capture s (m : match_result) :
  match_at instruction_re s = Some m →
  ∃ g, group1 m = Some g ∧ Js.includes g fence = false.
Proof.
  unfold match_at, instruction_re. intros H.
  do 7 (apply exec_seq_answer in H as (? & ? & H)).
  revert H. apply exec_group_capture.
  intros s' cap'. now eexists.
Qed.

Lemma search_instruction_capture s (m : match_result) :
  search instruction_re s = Some m →
  ∃ g, group1 m = Some g ∧ Js.includes g fence = false.
Proof.
  induction s as [|c s IH]; rewrite search_unfold;
    destruct (match_at instruction_re _) eqn:E;
    try discriminate;
    try (intros [= <-]; now apply (match_at_instruction_capture _ _ E)).
  exact IH.
Qed.

(** [split] at the first heading: the text before it, then the pieces of
    the text after it. *)
Lemma split_at_first_heading pre rest :
  Js.indexOf (pre +:+ heading) heading = Some (String.length pre) →
  ∃ p ps, split_go heading_re rest 0 true = (p, ps)
          ∧ split heading_re (pre +:+ heading +:+ rest) = pre :: p :: ps.
Proof.
  intros Hpre.
  destruct (split_go heading_re rest 0 true) as [p ps] eqn:Ego.
  exists p, ps. split; [reflexivity|].
  assert (∃ c s, pre +:+ heading +:+ rest = String c s) as (c & s & E).
  { destruct pre; [now eexists _, _ | now eexists _, _]. }
  rewrite E, split_nonempty, <- E, (split_go_first_heading _ _ _ Hpre).
  now rewrite Ego.
Qed.

(** X16: the extractor returns null exactly when the heading
    "## The Instruction" does not occur in the document. *)
Theorem extract_null_iff_no_heading (markdown : string) :
  extractInstruction markdown = None ↔ Js.indexOf markdown heading = None.
Proof.
  split.
  - intros Hnull. destruct (Js.indexOf markdown heading) as [n|] eqn:E;
      [|reflexivity].
    exfalso. apply indexOf_first_split in E as (pre & rest & -> & Hpre).
    unfold extractInstruction in Hnull.
    destruct (search instruction_re _) as [m|] eqn:Es.
    + apply instruction_re_captures in Es as [g Hg].
      rewrite Hg in Hnull. discriminate.
    + destruct (split_at_first_heading pre rest Hpre) as (p & ps & _ & Hsp).
      rewrite Hsp in Hnull. discriminate.
  - intros Habsent. unfold extractInstruction.
    now rewrite (search_without_heading _ Habsent),
      (split_without_heading _ Habsent).
Qed.

(** X17: what the extractor returns is trimmed: trimming it again, at
    either end, changes nothing. *)
Theorem extracted_is_trimmed (markdown instruction : string) :
  extractInstruction markdown = Some instruction →
  Js.trim instruction = instruction
  ∧ Js.trimStart instruction = instruction
  ∧ Js.trimEnd instruction = instruction.
Proof.
  unfold extractInstruction. intros H.
  assert (∃ t, instruction = Js.trim t) as [t ->].
  { destruct (search instruction_re markdown) as [m|].
    - destruct (group1 m) as [g|]; [|discriminate].
      injection H as <-. now exists g.
    - destruct (1 <? length _)%nat; [|discriminate].
      injection H as <-. now eexists. }
  split; [apply trim_idem|]. split; [apply trimStart_trim | apply trimEnd_trim].
Qed.

(** X18: when the fenced-block pattern matches, what the extractor returns
    contains no run of three backticks. *)
Theorem extracted_block_has_no_fence (markdown : string) (m : match_result) :
  search instruction_re markdown = Some m →
  ∃ g, group1 m = Some g
       ∧ Js.includes g fence = false
       ∧ extractInstruction markdown = Some (Js.trim g)
       ∧ Js.includes (Js.trim g) fence = false.
Proof.
  intros Hs. destruct (search_instruction_capture _ _ Hs) as (g & Hg & Hno).
  exists g. split; [exact Hg|]. split; [exact Hno|]. split.
  - unfold extractInstruction. now rewrite Hs, Hg.
  - destruct (Js.includes (Js.trim g) fence) eqn:E; [|reflexivity].
    rewrite <- Hno. symmetry.
    exact (includes_trans _ _ _ (includes_trim g) E).
Qed.

(** X19: what stands before the first heading "## The Instruction" has no
    influence on what the extractor returns. *)
Theorem text_before_heading_is_ignored pre rest :
  Js.indexOf (pre +:+ heading) heading = Some (String.length pre) →
  extractInstruction (pre +:+ heading +:+ rest)
  = extractInstruction (heading +:+ rest).
Proof.
  intros Hpre. unfold extractInstruction.
  rewrite (search_skips_to_heading _ _ Hpre).
  destruct (search instruction_re (heading +:+ rest)); [reflexivity|].
  destruct (split_at_first_heading pre rest Hpre) as (p & ps & Ego & ->).
  assert (H0 : Js.indexOf ("" +:+ heading) heading = Some (String.length ""))
    by reflexivity.
  destruct (split_at_first_heading "" rest H0) as (p' & ps' & Ego' & Hsp).
  rewrite append_nil_l in Hsp. rewrite Hsp.
  rewrite Ego in Ego'. now injection Ego' as <- <-.
Qed.

(** X20: in the fallback, a document with a second heading yields the text
    between the first heading and the second, trimmed; what follows the
    second heading is dropped. *)
Theorem fallback_stops_at_second_heading pre mid rest :
  search instruction_re (pre +:+ heading +:+ mid +:+ heading +:+ rest) = None →
  Js.indexOf (pre +:+ heading) heading = Some (String.length pre) →
  Js.indexOf (mid +:+ heading) heading = Some (String.length mid) →
  extractInstruction (pre +:+ heading +:+ mid +:+ heading +:+ rest)
  = Some (Js.trim mid).
Proof.
  intros Hno Hpre Hmid. unfold extractInstruction. rewrite Hno.
  destruct (split_at_first_heading pre (mid +:+ heading +:+ rest) Hpre)
    as (p & ps & Ego & ->).
  rewrite (split_go_first_heading _ _ _ Hmid) in Ego.
  now injection Ego as <- _.
Qed.

End MoreExtractorFacts.

(** * Further instances *)

(** ** The registry client and fetch-one *)

Lemma document_failure_surfaces_witness :
  ∃ r : ToolResult,
    CallTool (Sample2.missing_document 404)
      {| name := "get_instruction";
         arguments := Some (Sample2.raw_args "no-such-file") |} = Ok r
    ∧ isError r = Some true
    ∧ result_text r = "Error: File not found: no-such-file (404)"
    ∧ Js.includes (result_text r) "no-such-file" = true
    ∧ Js.includes (result_text r) "404" = true.
Proof.
  exact (proj2 (document_failure_surfaces (Sample2.missing_document 404)
                  (Sample.respond 404 "" Sample.index)
                  (Sample2.raw_args "no-such-file") eq_refl eq_refl)).
Defined.

Lemma client_failure_surfaces_witness :
  CallTool Sample2.garbled {| name := "search_registry"; arguments := None |}
  = Ok (error_result "Error: Unexpected token < in JSON at position 0").
Proof.
  pose proof (client_failure_surfaces Sample2.garbled
                {| message := "Unexpected token < in JSON at position 0" |}
                None "search_registry" (or_introl eq_refl))
    as (_ & Hjson & _).
  exact (Hjson _ eq_refl eq_refl eq_refl).
Defined.

(** A registry that serves one document only answers a call for that
    document as the whole library does. *)
Lemma call_reads_one_address_witness :
  CallTool (Sample2.library Sample.index Sample.plain_doc)
    {| name := "get_instruction";
       arguments := Some (Sample.instruction_of "output-guard") |}
  = CallTool (Sample2.narrow Sample.index "output-guard" Sample.plain_doc)
      {| name := "get_instruction";
         arguments := Some (Sample.instruction_of "output-guard") |}.
Proof.
  apply call_reads_one_address. reflexivity.
Defined.

Lemma raw_document_is_verbatim_witness :
  CallTool (Sample.serving Sample.fenced_doc)
    {| name := "get_instruction";
       arguments := Some (Sample2.raw_args "output-guard") |}
  = Ok (text_result Sample.fenced_doc).
Proof.
  refine (proj1 (raw_document_is_verbatim (Sample.serving Sample.fenced_doc)
                   (Sample.respond 200 Sample.fenced_doc Sample.index)
                   (Sample2.raw_args "output-guard") eq_refl eq_refl _)).
  discriminate.
Defined.

Lemma extracted_instruction_is_wrapped_witness :
  ∃ r : ToolResult,
    CallTool (Sample.serving Sample.fenced_doc)
      {| name := "get_instruction";
         arguments := Some (Sample.instruction_of "output-guard") |} = Ok r
    ∧ isError r = None
    ∧ result_text r
      = Sample.lines
          [ "# Instruction: output-guard"; ""; "```"; "do X"; "```"; "";
            "Fetched from: https://openclaw-sandy-eight.vercel.app/registry/output-guard.md" ]
    ∧ Js.includes (result_text r) "do X" = true.
Proof.
  refine (extracted_instruction_is_wrapped (Sample.serving Sample.fenced_doc)
            (Sample.respond 200 Sample.fenced_doc Sample.index)
            (Sample.instruction_of "output-guard") "do X"
            eq_refl eq_refl eq_refl eq_refl _).
  discriminate.
Defined.

Lemma missing_slug_reads_undefined_witness :
  handleGetInstruction (Sample2.missing_document 404) Args.empty
  = handleGetInstruction (Sample2.missing_document 404)
      (with_slug (Some "undefined") Args.empty)
  ∧ document_url None
    = "https://openclaw-sandy-eight.vercel.app/registry/undefined.md".
Proof.
  pose proof (missing_slug_reads_undefined (Sample2.missing_document 404)
                Args.empty eq_refl) as (Hget & Hurl & _).
  split; [exact Hget | exact Hurl].
Defined.

(** ** Search and featured listing *)

Lemma query_case_is_ignored_witness :
  search_results Sample.index (with_q (Some "SAFETY") Sample.production)
  = search_results Sample.index (with_q (Some "Safety") Sample.production).
Proof.
  exact (proj1 (query_case_is_ignored (Sample.indexed Sample.index)
                  Sample.production "SAFETY" "Safety" eq_refl) Sample.index).
Defined.

Lemma shorter_query_finds_more_witness :
  In Sample.guard
    (search_results Sample.index (with_q (Some "safe") Args.empty)).
Proof.
  apply (shorter_query_finds_more Sample.index Args.empty "SAFETY" "safe").
  - reflexivity.
  - left. reflexivity.
Defined.

Lemma higher_threshold_finds_less_witness :
  In Sample.triage
    (search_results Sample.index (with_min_quality (Some 80%Z) Args.empty)).
Proof.
  apply (higher_threshold_finds_less Sample.index Args.empty 80 90).
  - lia.
  - lia.
  - left. reflexivity.
Defined.

(** The threshold 0 is higher than -3 and lists more. *)
Example zero_threshold_lists_more :
  search_results Sample2.negative_index
    (with_min_quality (Some 0%Z) Args.empty) = [Sample2.below]
  ∧ search_results Sample2.negative_index
      (with_min_quality (Some (-3)%Z) Args.empty) = [].
Proof. split; reflexivity. Qed.

Lemma featured_is_featured_only_search_witness :
  search_results Sample.index featured_only_args = [Sample.triage]
  ∧ handleGetFeatured (Sample.indexed Sample.index)
    = Ok (text_result
            (Sample.lines
               [ "Featured files (1 total — quality score 90+):"; "";
                 "**Title of tier1-customer-support** [system-prompts]";
                 "slug: tier1-customer-support | quality: 95/100";
                 "tags: "; "";
                 "Use get_instruction with any slug to fetch the full file." ])).
Proof.
  pose proof (featured_is_featured_only_search (Sample.indexed Sample.index)
                Sample.index eq_refl) as (Hs & _ & Hfeatured & _).
  split; [exact Hs | exact Hfeatured].
Defined.

(** ** Category counts *)

Lemma category_count_is_category_search_witness :
  search_results Sample.index (category_args "skills") = [Sample.guard]
  ∧ reported_count
      (count_categories (categories Sample.index)
         (array_or_empty (entries Sample.index))) "skills"
    = Count 1
  ∧ category_block
      (count_categories (categories Sample.index)
         (array_or_empty (entries Sample.index))) "skills"
    = Sample.lines
        [ "**skills** (1 file)";
          "  Scoped capability modules for specific tasks — drop into any agent to add a capability" ].
Proof.
  pose proof (category_count_is_category_search
                (Sample.indexed Sample.index) Sample.index "skills" eq_refl
                (or_intror (or_introl eq_refl)))
    as Hskills.
  destruct Hskills as (Hs & Hn & Hline & _); [discriminate | discriminate |].
  split; [exact Hs|]. split; [exact Hn | exact Hline].
Defined.

(** A category declared as the empty string counts no entry, and the
    search for it lists every entry. *)
Example empty_category_count_differs :
  let index := {| count := 1; categories := [""];
                  entries := Some [Sample.guard] |} in
  reported_count
    (count_categories (categories index) (array_or_empty (entries index))) ""
  = Count 0
  ∧ search_results index (category_args "") = [Sample.guard].
Proof. split; vm_compute; reflexivity. Qed.

(** A category declared as [__proto__] is printed without a number, while
    the search for it lists its entry. *)
Example proto_category_prints_no_number :
  let odd := Sample.entry "odd" "__proto__" None None None in
  let index := {| count := 1; categories := ["__proto__"];
                  entries := Some [odd] |} in
  handleListCategories (Sample.indexed index)
  = Ok (text_result
          (Sample.lines
             [ "OpenClaw Registry — 1 total files"; "";
               "**__proto__** ([object Object] files)";
               "  [object Object]"; "";
               "Use search_registry with category filter to browse files in any category." ]))
  ∧ search_results index (category_args "__proto__") = [odd].
Proof. split; vm_compute; reflexivity. Qed.

(** An entry of the undeclared category [constructor] is not counted, and
    a declared category [constructor] is counted like any other; its
    description is the built-in function of that name. *)
Example constructor_category_is_counted :
  let odd := Sample.entry "odd" "constructor" None None None in
  reported_count (count_categories ["skills"] [odd]) "skills" = Count 0
  ∧ category_block (count_categories ["constructor"] [odd]) "constructor"
    = Sample.lines
        [ "**constructor** (1 file)";
          "  function Object() { [native code] }" ].
Proof. split; vm_compute; reflexivity. Qed.

(** ** The extractor *)

Lemma extracted_is_trimmed_witness :
  Js.trim "do X" = "do X"
  ∧ Js.trimStart "do X" = "do X"
  ∧ Js.trimEnd "do X" = "do X".
Proof.
  exact (extracted_is_trimmed Sample.plain_doc "do X" eq_refl).
Defined.

Lemma extracted_block_has_no_fence_witness :
  search instruction_re Sample.fenced_doc
  = Some {| matched_length := 36; group1 := Some ("do X" +:+ LF) |}
  ∧ Js.includes ("do X" +:+ LF) fence = false
  ∧ extractInstruction Sample.fenced_doc = Some "do X".
Proof.
  pose proof (extracted_block_has_no_fence Sample.fenced_doc
                {| matched_length := 36; group1 := Some ("do X" +:+ LF) |}
                eq_refl) as (g & Hg & Hno & Hext & _).
  injection Hg as <-.
  split; [reflexivity|]. split; [exact Hno | exact Hext].
Defined.

Lemma text_before_heading_is_ignored_witness :
  extractInstruction Sample.plain_doc
  = extractInstruction (heading +:+ LF +:+ "  do X  " +:+ LF).
Proof.
  exact (text_before_heading_is_ignored ("# Output guard" +:+ LF)
           (LF +:+ "  do X  " +:+ LF) eq_refl).
Defined.

Lemma fallback_stops_at_second_heading_witness :
  extractInstruction Sample.twice_doc = Some "foo".
Proof.
  exact (fallback_stops_at_second_heading "" (LF +:+ "foo" +:+ LF)
           (LF +:+ "bar") eq_refl eq_refl eq_refl).
Defined.
